(** * daterange: date ranges and friendly timedelta strings

    A shallow embedding of [daterange/__init__.py]: the [DateRange]
    iterator and the [delta] parser, together with the parts of the Python
    run time they call ([str.split], [str.strip], [str.lower], [int],
    [re.match], [datetime.timedelta], [datetime.date],
    [datetime.datetime]). *)

From Stdlib Require Import ZArith Ascii Lia.
From stdpp Require Import base option list gmap strings.

Open Scope Z_scope.

Arguments String.append !_ _ : simpl nomatch.

(** ** The Python values the program handles *)

(** A [datetime.timedelta], as Python stores it: normalised, with
    [0 <= seconds < 86400] and [0 <= microseconds < 1000000]. Its
    constructor is [datetime.timedelta_new] below. *)
Record timedelta : Type := mk_timedelta {
  days : Z;
  seconds : Z;
  microseconds : Z
}.

#[global] Instance timedelta_eq_dec : EqDecision timedelta.
Proof. solve_decision. Defined.

(** What [DateRange.__init__] may be given as [step]. *)
Inductive object : Type :=
| Int (n : Z)                  (* int, long (and bool) *)
| Str (s : string)             (* basestring *)
| Timedelta (d : timedelta)    (* datetime.timedelta *)
| Other.                       (* None, float, tuple, ... *)

(** The messages of the exceptions, with the formatted value kept apart. *)
Inductive message : Type :=
| Invalid_delta_specifier (specifier : string)
| Invalid_unit (unit_alias : string)
| Invalid_step_value (step : object)
| invalid_literal_for_int (s : string)
| Exceeds_the_limit (digits : nat)
| invalid_keyword_argument.

Inductive exception : Type :=
| ValueError (m : message)
| TypeError (m : message)
| OverflowError
| StopIteration.

Inductive result (A : Type) : Type :=
| Ok (a : A)
| Raise (e : exception).
Arguments Ok {A} a.
Arguments Raise {A} e.

Definition bind {A B : Type} (r : result A) (k : A -> result B) : result B :=
  match r with
  | Ok a => k a
  | Raise e => Raise e
  end.

Notation "x <- r ;; k" := (bind r (fun x => k))
  (at level 100, r at next level, right associativity).

(** ** Strings

    A [str] is a Rocq [string] whose characters are the code points
    U+0000 to U+00FF; the character classes are those of Python 3 on that
    range. *)

Module str.

Definition ord (c : ascii) : Z := Z.of_N (N_of_ascii c).

Definition between (lo hi : Z) (c : ascii) : bool :=
  (lo <=? ord c) && (ord c <=? hi).

(** [str.isspace], also the class [\s]. *)
Definition isspace (c : ascii) : bool :=
  between 9 13 c || between 28 32 c || (ord c =? 133) || (ord c =? 160).

(** [str.isdecimal], also the class [\d]. *)
Definition isdecimal (c : ascii) : bool := between 48 57 c.

Definition isupper_ascii (c : ascii) : bool := between 65 90 c.
Definition islower_ascii (c : ascii) : bool := between 97 122 c.

(** The letters of the ASCII range. *)
Definition isletter (c : ascii) : bool := isupper_ascii c || islower_ascii c.

(** [str.isalnum] or an underscore: the class [\w]. *)
Definition isword (c : ascii) : bool :=
  isdecimal c || isletter c || (ord c =? 95)
  || (ord c =? 170) || (ord c =? 181) || (ord c =? 186)
  || between 178 179 c || (ord c =? 185) || between 188 190 c
  || between 192 214 c || between 216 246 c || between 248 255 c.

Definition lower_char (c : ascii) : ascii :=
  if isupper_ascii c || between 192 214 c || between 216 222 c
  then ascii_of_N (N_of_ascii c + 32)
  else c.

(** [s.lower()] *)
Fixpoint lower (s : string) : string :=
  match s with
  | EmptyString => EmptyString
  | String c s' => String (lower_char c) (lower s')
  end.

Fixpoint lstrip (s : string) : string :=
  match s with
  | EmptyString => EmptyString
  | String c s' => if isspace c then lstrip s' else s
  end.

Fixpoint rstrip (s : string) : string :=
  match s with
  | EmptyString => EmptyString
  | String c s' =>
      match rstrip s' with
      | EmptyString => if isspace c then EmptyString else String c EmptyString
      | r => String c r
      end
  end.

(** [s.strip()] *)
Definition strip (s : string) : string := rstrip (lstrip s).

(** [s.split(sep)] for a one-character separator: never empty. *)
Fixpoint split (sep : ascii) (s : string) : list string :=
  match s with
  | EmptyString => [EmptyString]
  | String c s' =>
      if Ascii.eqb c sep then EmptyString :: split sep s'
      else match split sep s' with
           | h :: t => String c h :: t
           | [] => [String c EmptyString]
           end
  end.

Fixpoint all (p : ascii -> bool) (s : string) : bool :=
  match s with
  | EmptyString => true
  | String c s' => p c && all p s'
  end.

(** The first [n] characters, and the rest. *)
Fixpoint take (n : nat) (s : string) : string :=
  match n, s with
  | S n', String c s' => String c (take n' s')
  | _, _ => EmptyString
  end.

Fixpoint drop (n : nat) (s : string) : string :=
  match n, s with
  | S n', String _ s' => drop n' s'
  | _, _ => s
  end.

(** The length of the longest prefix whose characters are all in [p]. *)
Fixpoint run (p : ascii -> bool) (s : string) : nat :=
  match s with
  | String c s' => if p c then S (run p s') else O
  | EmptyString => O
  end.

(** [s] is empty or starts with a character outside [p]. *)
Definition stops (p : ascii -> bool) (s : string) : Prop :=
  match s with
  | EmptyString => True
  | String c _ => p c = false
  end.

(** No character of [s] is a comma. *)
Definition nocomma (s : string) : bool :=
  all (fun c => negb (Ascii.eqb c ",")) s.

Definition digit_value (c : ascii) : Z := ord c - 48.

(** What [int] skips around a literal: the whitespace of [str.isspace]
    but the separators U+001C to U+001F. *)
Definition isspace_int (c : ascii) : bool :=
  between 9 13 c || (ord c =? 32) || (ord c =? 133) || (ord c =? 160).

(** [sys.int_info.default_max_str_digits]: the most digits that [int]
    converts (Python 3.11; [sys.set_int_max_str_digits] is not called). *)
Definition MAX_STR_DIGITS : nat := 4300.

(** The digits at the start of an integer literal: their value, how many
    they are, and what follows them. Single underscores may separate
    digits and are not counted; [None] when an underscore does not stand
    between two digits. *)
Fixpoint int_digits (acc : Z) (digits : nat) (after_underscore : bool)
    (s : string) : option (Z * nat * string) :=
  match s with
  | EmptyString =>
      if after_underscore then None else Some (acc, digits, EmptyString)
  | String c s' =>
      if isdecimal c then
        int_digits (10 * acc + digit_value c) (S digits) false s'
      else if ord c =? 95 then
        if after_underscore then None else int_digits acc digits true s'
      else if after_underscore then None else Some (acc, digits, s)
  end.

(** [int(s)]: surrounding whitespace and a sign are accepted. Integers
    have arbitrary precision, but a literal of more than [MAX_STR_DIGITS]
    digits is refused ("Exceeds the limit (4300 digits) for integer string
    conversion"), before what follows the digits is looked at. *)
Definition int (s : string) : result Z :=
  let invalid := Raise (ValueError (invalid_literal_for_int s)) in
  let body := drop (run isspace_int s) s in
  let '(sign, body) :=
    match body with
    | String c b =>
        if ord c =? 45 then (-1, b)
        else if ord c =? 43 then (1, b)
        else (1, body)
    | EmptyString => (1, body)
    end in
  match body with
  | String c _ =>
      if ord c =? 95 then invalid
      else
        match int_digits 0 0 false body with
        | Some (n, digits, rest) =>
            if (MAX_STR_DIGITS <? digits)%nat then
              Raise (ValueError (Exceeds_the_limit digits))
            else if (digits =? 0)%nat || negb (all isspace_int rest) then
              invalid
            else Ok (sign * n)
        | None => invalid
        end
  | EmptyString => invalid
  end.

End str.

(** ** Regular expressions

    The two patterns of the program, [^(\d+)$] and [^(\d+)\s*(\w+)$], are
    sequences of greedily repeated character classes between [^] and [$].
    [re.match] is a backtracking matcher: each repetition first takes as
    many characters as it can and gives them back one at a time while the
    rest of the pattern fails. *)

Module re.

Inductive class : Type := d | s | w.

Definition member (k : class) : ascii -> bool :=
  match k with
  | d => str.isdecimal
  | s => str.isspace
  | w => str.isword
  end.

Record piece : Type := mk_piece {
  cls : class;
  at_least : nat;
  group : bool
}.

Definition plus (k : class) : piece := mk_piece k 1 false.
Definition star (k : class) : piece := mk_piece k 0 false.
Definition capture (p : piece) : piece := mk_piece (cls p) (at_least p) true.

(** [$] without the MULTILINE flag: the end of the string, or just
    before a newline that ends the string. *)
Definition at_dollar (s : string) : bool :=
  match s with
  | EmptyString => true
  | String c EmptyString => str.ord c =? 10
  | _ => false
  end.

(** Try [f] at [n], [n - 1], ... ([tries] lengths in all). *)
Fixpoint backtrack {A : Type} (f : nat -> option A) (n tries : nat) : option A :=
  match tries with
  | O => None
  | S tries' =>
      match f n with
      | Some a => Some a
      | None => backtrack f (Nat.pred n) tries'
      end
  end.

Fixpoint match_pieces (ps : list piece) (s : string) : option (list string) :=
  match ps with
  | [] => if at_dollar s then Some [] else None
  | p :: ps' =>
      let longest := str.run (member (cls p)) s in
      backtrack
        (fun n =>
           match match_pieces ps' (str.drop n s) with
           | Some groups =>
               Some (if group p then str.take n s :: groups else groups)
           | None => None
           end)
        longest (S longest - at_least p)
  end.

(** [re.match(pattern, s)] for a pattern [^ pieces $]; the result is
    [match.groups()]. *)
Definition match_ (pattern : list piece) (s : string) : option (list string) :=
  match_pieces pattern s.

End re.

(** ** The datetime module *)

Module datetime.

Definition US_PER_SECOND : Z := 1000000.
Definition US_PER_DAY : Z := 86400 * US_PER_SECOND.
Definition MAXORDINAL : Z := 3652059.        (* date.max.toordinal() *)
Definition MAX_DELTA_DAYS : Z := 999999999.

Definition total_microseconds (t : timedelta) : Z :=
  (days t * 86400 + seconds t) * US_PER_SECOND + microseconds t.

(** [timedelta(days, seconds, microseconds, milliseconds, minutes,
    hours, weeks)] on integer arguments. *)
Definition timedelta_new
    (days seconds microseconds milliseconds minutes hours weeks : Z)
    : result timedelta :=
  let us :=
    ((((weeks * 7 + days) * 24 + hours) * 60 + minutes) * 60 + seconds)
      * US_PER_SECOND
    + milliseconds * 1000 + microseconds in
  let d := us / US_PER_DAY in
  if Z.abs d >? MAX_DELTA_DAYS then Raise OverflowError
  else Ok (mk_timedelta d ((us / US_PER_SECOND) mod 86400) (us mod US_PER_SECOND)).

Definition keywords : list string :=
  ["days"; "seconds"; "microseconds"; "milliseconds"; "minutes"; "hours";
   "weeks"].

(** [timedelta( **kwargs )] *)
Definition timedelta_kwargs (kwargs : gmap string Z) : result timedelta :=
  if bool_decide (dom kwargs ⊆ list_to_set keywords) then
    let arg k := default 0 (kwargs !! k) in
    timedelta_new (arg "days") (arg "seconds") (arg "microseconds")
                  (arg "milliseconds") (arg "minutes") (arg "hours")
                  (arg "weeks")
  else Raise (TypeError invalid_keyword_argument).

(** A [datetime.date], by its proleptic Gregorian ordinal
    ([date.toordinal], [date.fromordinal]): day 1 is 0001-01-01 and day
    [MAXORDINAL] is 9999-12-31. *)
Record date : Type := fromordinal { toordinal : Z }.

(** A naive [datetime.datetime], by the microseconds elapsed since the
    midnight that begins ordinal day 0. *)
Record datetime : Type := mk_datetime { microsecond_count : Z }.

(** What [DateRange] asks of the values it steps through. *)
Class Temporal (T : Type) : Type := {
  __add__ : T -> timedelta -> result T;
  __le__ : T -> T -> bool
}.

Definition in_range (ordinal : Z) : bool :=
  (0 <? ordinal) && (ordinal <=? MAXORDINAL).

(** [date + timedelta] uses the days of the timedelta only. *)
Definition date_add (self : date) (other : timedelta) : result date :=
  let o := toordinal self + days other in
  if in_range o then Ok (fromordinal o) else Raise OverflowError.

Definition datetime_add (self : datetime) (other : timedelta) : result datetime :=
  let t := microsecond_count self + total_microseconds other in
  if in_range (t / US_PER_DAY) then Ok (mk_datetime t) else Raise OverflowError.

#[global] Instance date_Temporal : Temporal date := {
  __add__ := date_add;
  __le__ a b := toordinal a <=? toordinal b
}.

#[global] Instance datetime_Temporal : Temporal datetime := {
  __add__ := datetime_add;
  __le__ a b := microsecond_count a <=? microsecond_count b
}.

End datetime.
Import datetime.

(** ** delta: timedeltas from short, friendly strings *)

Module delta.

(** unit_name: unit_aliases *)
Definition UNIT_NAMES : list (string * list string) :=
  [ ("days", ["d"; "day"]);
    ("hours", ["h"; "hr"; "hrs"; "hour"]);
    ("minutes", ["m"; "min"; "mins"; "minute"]);
    ("seconds", ["s"; "sec"; "secs"; "second"]);
    ("microseconds", ["ms"; "microsec"; "microsecs"; "microsecond"]) ].

(** [UNIT_NAMES] turned inside-out: unit aliases point to canonical
    unit names, and each canonical name points to itself. *)
Definition UNIT_ALIASES : gmap string string :=
  fold_left
    (fun UNIT_ALIASES '(cname, aliases) =>
       <[cname := cname]>
         (fold_left (fun UNIT_ALIASES alias => <[alias := cname]> UNIT_ALIASES)
                    aliases UNIT_ALIASES))
    UNIT_NAMES ∅.

(** [^(\d+)\s*(\w+)$] *)
Definition specifier_pattern : list re.piece :=
  [re.capture (re.plus re.d); re.star re.s; re.capture (re.plus re.w)].

(** The body of the loop over the specifiers. *)
Definition body (kwargs : gmap string Z) (specifier : string)
    : result (gmap string Z) :=
  match re.match_ specifier_pattern specifier with
  | Some [number; unit_alias] =>
      number <- str.int number ;;
      let unit_alias := str.lower unit_alias in
      match UNIT_ALIASES !! unit_alias with
      | Some unit_cname =>
          if String.eqb unit_cname "" then
            Raise (ValueError (Invalid_unit unit_alias))
          else
            Ok (<[unit_cname := default 0 (kwargs !! unit_cname) + number]> kwargs)
      | None => Raise (ValueError (Invalid_unit unit_alias))
      end
  | _ => Raise (ValueError (Invalid_delta_specifier specifier))
  end.

Fixpoint loop (specifiers : list string) (kwargs : gmap string Z)
    : result (gmap string Z) :=
  match specifiers with
  | [] => Ok kwargs
  | specifier :: rest => kwargs <- body kwargs specifier ;; loop rest kwargs
  end.

Definition __new__ (string : string) : result timedelta :=
  let specifiers := map str.strip (str.split "," string) in
  kwargs <- loop specifiers ∅ ;;
  timedelta_kwargs kwargs.

End delta.

(** ** DateRange *)

Module DateRange.
Section DateRange.

Context {T : Type} `{Temporal T}.

(** The attributes of an instance. *)
Record self : Type := mk_self {
  date : T;
  condition : T -> bool;
  step : timedelta
}.

(** [datetime.timedelta(days=1)], the default step. *)
Definition default_step : object := Timedelta (mk_timedelta 1 0 0).

Definition __init__ (date : T) (to : option T) (step : object) : result self :=
  let condition :=
    match to with
    | None => fun d => true
    | Some to => fun d => __le__ d to
    end in
  step <-
    match step with
    | Int n =>
        td <- timedelta_new n 0 0 0 0 0 0 ;; Ok (Timedelta td)
    | Str s =>
        match re.match_ [re.capture (re.plus re.d)] s with
        | Some _ =>
            n <- str.int s ;;
            td <- timedelta_new n 0 0 0 0 0 0 ;; Ok (Timedelta td)
        | None =>
            match delta.__new__ s with
            | Ok td => Ok (Timedelta td)
            | Raise (ValueError _) => Ok step
            | Raise e => Raise e
            end
        end
    | _ => Ok step
    end ;;
  match step with
  | Timedelta td => Ok (mk_self date condition td)
  | _ => Raise (TypeError (Invalid_step_value step))
  end.

(** One call of [next]: what it returns or raises, and the instance
    afterwards. *)
Definition next (self : self) : result T * DateRange.self :=
  if condition self (date self) then
    let current_date := date self in
    match __add__ (date self) (step self) with
    | Ok date' => (Ok current_date, mk_self date' (condition self) (step self))
    | Raise e => (Raise e, self)
    end
  else (Raise StopIteration, self).

Definition __iter__ (self : self) : DateRange.self := self.

(** Python 3 compatibility *)
Definition __next__ (self : self) : result T * DateRange.self := next self.

(** [daterange(date, to, step)], with [None] for an argument left out. *)
Definition daterange (date : T) (to : option T) (step : option object)
    : result self :=
  __init__ date to (default default_step step).

(** [k] calls of [next] in a row: the outcome of each, and the instance
    after the last. *)
Fixpoint calls (k : nat) (self : self) : list (result T) * DateRange.self :=
  match k with
  | O => ([], self)
  | S k' =>
      let (r, self') := next self in
      let (rs, self'') := calls k' self' in
      (r :: rs, self'')
  end.

(** What the first [k] calls of [next] return or raise, on the range that
    a construction gave. *)
Definition outcomes (k : nat) (made : result self) : result (list (result T)) :=
  r <- made ;; Ok (calls k r).1.

End DateRange.
End DateRange.


(** ** The time line of a temporal type

    Both [date] and [datetime] lie on a line of integer ticks (days for a
    [date], microseconds for a [datetime]): [<=] compares positions, and
    adding a timedelta moves by [advance] ticks, or raises [OverflowError]
    when that leaves the range of the type. *)

Class TemporalLine (T : Type) `{Temporal T} : Type := {
  tick : T -> Z;
  of_tick : Z -> T;
  advance : timedelta -> Z;
  first_tick : Z;
  last_tick : Z;
  tick_of_tick : forall z, tick (of_tick z) = z;
  of_tick_tick : forall a, of_tick (tick a) = a;
  le_tick : forall a b, __le__ a b = (tick a <=? tick b);
  add_tick : forall a t,
    __add__ a t =
    if (first_tick <=? tick a + advance t) && (tick a + advance t <=? last_tick)
    then Ok (of_tick (tick a + advance t))
    else Raise OverflowError
}.

(** A value of the type: one that the type can represent. *)
Definition representable {T : Type} `{TemporalLine T} (z : Z) : Prop :=
  first_tick <= z <= last_tick.

(** The [n] values that start at tick [z] and are [s] ticks apart. *)
Definition values_from {T : Type} `{TemporalLine T} (z s : Z) (n : nat)
    : list T :=
  map (fun i => of_tick (z + Z.of_nat i * s)) (seq 0 n).

(** The [n] values that start at [a] and are [s] ticks apart. *)
Definition progression {T : Type} `{TemporalLine T} (a : T) (s : Z) (n : nat)
    : list T :=
  values_from (tick a) s n.

(** ** Shapes of specifiers *)

(** [sp] is a number, optional whitespace, and a unit token whose
    characters are all in [unit_char]. *)
Definition shaped (unit_char : ascii -> bool) (sp number gap token : string)
    : Prop :=
  sp = number +:+ gap +:+ token /\
  number <> "" /\ str.all str.isdecimal number = true /\
  str.all str.isspace gap = true /\
  token <> "" /\ str.all unit_char token = true.

Definition has_shape (unit_char : ascii -> bool) (sp : string) : Prop :=
  exists number gap token, shaped unit_char sp number gap token.

(** The number is the longest run of leading digits that leaves a unit
    token: a token that follows the number directly starts with a digit
    only when it is that single digit. *)
Definition longest_number (gap token : string) : Prop :=
  gap = "" ->
  forall c rest, token = String c rest -> str.isdecimal c = true -> rest = "".

(** The parser reads [sp] as [number] and [token]. *)
Definition reads_as (sp number token : string) : Prop :=
  exists gap, shaped str.isword sp number gap token /\ longest_number gap token.

(** A specifier the parser accepts: its number has no more digits than
    [int] converts, and its unit token is in the alias table. *)
Definition accepted (sp : string) : Prop :=
  exists number token,
    reads_as sp number token /\
    (String.length number <= str.MAX_STR_DIGITS)%nat /\
    is_Some (delta.UNIT_ALIASES !! str.lower token).

(** [sep.join(l)] *)
Fixpoint join (sep : string) (l : list string) : string :=
  match l with
  | [] => ""
  | [x] => x
  | x :: l' => x +:+ sep +:+ join sep l'
  end.

(** The parser reads [sp] as [n] units of the canonical name [c]. *)
Definition reads_unit (c sp : string) (n : Z) : Prop :=
  exists number token,
    reads_as sp number token /\ str.int number = Ok n /\
    delta.UNIT_ALIASES !! str.lower token = Some c.

Definition sum (ns : list Z) : Z := foldr Z.add 0 ns.

(** The sum of the quantities that [cns] gives for the canonical name [c]. *)
Definition total (c : string) (cns : list (string * Z)) : Z :=
  sum (snd <$> filter (fun cn => cn.1 = c) cns).

(** The canonical unit names. *)
Definition cnames : list string :=
  ["days"; "hours"; "minutes"; "seconds"; "microseconds"].

(** An entry of the alias table: a word of small letters that points to a
    canonical name. *)
Definition entry_ok (e : string * string) : bool :=
  negb (String.eqb e.1 "") && str.all str.islower_ascii e.1
  && negb (String.eqb e.2 "") && bool_decide (e.2 ∈ cnames).

(** ** Specifiers as written *)

(** A specifier as it stands in a spec string: a number and a unit, with
    optional whitespace before, between and after them. *)
Record specifier : Type := mk_specifier {
  lead : string;
  number : string;
  gap : string;
  unit_name : string;
  trail : string
}.

Definition text (sp : specifier) : string :=
  lead sp +:+ number sp +:+ gap sp +:+ unit_name sp +:+ trail sp.

(** [sp] writes [n] units, and names the unit by an alias (in any letter
    case) of the canonical name [c]. *)
Definition specifier_of (c : string) (sp : specifier) (n : Z) : Prop :=
  str.all str.isspace (lead sp) = true /\
  str.all str.isspace (gap sp) = true /\
  str.all str.isspace (trail sp) = true /\
  number sp <> "" /\ str.all str.isdecimal (number sp) = true /\
  str.int (number sp) = Ok n /\
  delta.UNIT_ALIASES !! str.lower (unit_name sp) = Some c.

(** The canonical unit table of the specification. *)
Definition alias_table : list (string * list string) :=
  [ ("days", ["d"; "day"; "days"]);
    ("hours", ["h"; "hr"; "hrs"; "hour"; "hours"]);
    ("minutes", ["m"; "min"; "mins"; "minute"; "minutes"]);
    ("seconds", ["s"; "sec"; "secs"; "second"; "seconds"]);
    ("microseconds",
     ["ms"; "microsec"; "microsecs"; "microsecond"; "microseconds"]) ].

(** The alias [e.1] stands in the table under the canonical name [e.2]. *)
Definition in_alias_table (e : string * string) : bool :=
  existsb (fun row => String.eqb row.1 e.2 && existsb (String.eqb e.1) row.2)
          alias_table.


(** The dates of the examples: the days of June 2009. *)
Definition june (day : Z) : date := fromordinal (733558 + day).

(** The range of [daterange(june 21, to=june 25, step='2 days')]. *)
Definition g4 : DateRange.self :=
  DateRange.mk_self (june 21) (fun d => __le__ d (june 25)) (mk_timedelta 2 0 0).

(** A range that starts after its bound. *)
Definition late : DateRange.self :=
  DateRange.mk_self (june 25) (fun d => __le__ d (june 21)) (mk_timedelta 1 0 0).

(** ** The claims that do not hold as they are stated *)

(** A bounded range whose span is a non-negative exact multiple of the
    step produces [span / step + 1] values, all of them at most the bound
    and the bound among them, and then is exhausted. On dates. *)
Definition C1_as_stated : Prop :=
  forall (start bound : date) (step : timedelta) (r : DateRange.self),
    in_range (toordinal start) = true -> in_range (toordinal bound) = true ->
    DateRange.__init__ start (Some bound) (Timedelta step) = Ok r ->
    let span := (toordinal bound - toordinal start) * US_PER_DAY in
    0 <= span -> (exists k, span = k * total_microseconds step) ->
    let n := Z.to_nat (span / total_microseconds step + 1) in
    exists values : list date,
      length values = n /\
      (DateRange.calls (S n) r).1 = (Ok <$> values) ++ [Raise StopIteration] /\
      Forall (fun v => __le__ v bound = true) values /\
      bound ∈ values.

(** Every specifier without the shape (a number, optional whitespace, a
    unit token of letters only) makes the parse fail with "Invalid delta
    specifier", and every specifier with the shape and an unknown unit
    makes it fail with "Invalid unit". *)
Definition C3_as_stated : Prop :=
  forall (spec sp : string),
    sp ∈ map str.strip (str.split "," spec) ->
    (~ has_shape str.isletter sp ->
     exists m, delta.__new__ spec = Raise (ValueError (Invalid_delta_specifier m))) /\
    (forall number gap token,
       shaped str.isletter sp number gap token ->
       delta.UNIT_ALIASES !! str.lower token = None ->
       exists m, delta.__new__ spec = Raise (ValueError (Invalid_unit m))).

(** What a specifier with the shape of [C3_as_stated] looks like from the
    left: digits, then whitespace, then letters to the end. *)
Definition letters_after_number (sp : string) : bool :=
  let s1 := str.drop (str.run str.isdecimal sp) sp in
  let s2 := str.drop (str.run str.isspace s1) s1 in
  (1 <=? str.run str.isdecimal sp)%nat && negb (String.eqb s2 "")
  && str.all str.isletter s2.

(** A string step that is not made of digits only and that [delta]
    rejects makes the construction fail with a TypeError. On dates. *)
Definition C4_as_stated : Prop :=
  forall (start : date) (to : option date) (s : string),
    ~ (s <> "" /\ str.all str.isdecimal s = true) ->
    (exists m, delta.__new__ s = Raise (ValueError m)) ->
    exists m, DateRange.__init__ start to (Str s) = Raise (TypeError m).

(** The [n]-th value of an unbounded range with the default step of one
    day is [n] days after the start, and no call raises StopIteration. On
    dates. *)
Definition C8_as_stated : Prop :=
  forall (D : date) (n : nat) (r : DateRange.self),
    in_range (toordinal D) = true ->
    DateRange.daterange D None None = Ok r ->
    (DateRange.calls (S n) r).1 !! n
      = Some (Ok (fromordinal (toordinal D + Z.of_nat n))) /\
    forall m, Raise StopIteration ∉ (DateRange.calls m r).1.

(** ** More of the program: what the further properties are stated with *)

(** [a + t + ... + t], with [i] additions of the type. *)
Fixpoint add_times {T : Type} `{Temporal T} (a : T) (t : timedelta) (i : nat)
    : result T :=
  match i with
  | O => Ok a
  | S i' => a' <- __add__ a t ;; add_times a' t i'
  end.

(** The microseconds that the quantities of [cns] are worth, each under
    its canonical unit. *)
Definition unit_microseconds (cns : list (string * Z)) : Z :=
  total "days" cns * US_PER_DAY
  + total "hours" cns * (3600 * US_PER_SECOND)
  + total "minutes" cns * (60 * US_PER_SECOND)
  + total "seconds" cns * US_PER_SECOND
  + total "microseconds" cns.

(** The two loops of the class body of [delta], which fill [UNIT_ALIASES]
    from [UNIT_NAMES], on any table of names and any dict to start from. *)
Definition invert_into (UNIT_ALIASES : gmap string string)
    (names : list (string * list string)) : gmap string string :=
  fold_left
    (fun UNIT_ALIASES '(cname, aliases) =>
       <[cname := cname]>
         (fold_left (fun UNIT_ALIASES alias => <[alias := cname]> UNIT_ALIASES)
                    aliases UNIT_ALIASES))
    names UNIT_ALIASES.

(** The names of a table, aliases and canonical names, in the order in
    which the loops write them. *)
Definition all_names (names : list (string * list string)) : list string :=
  names ≫= (fun e => e.2 ++ [e.1]).

(** The range of [daterange(june 21, step='12 hours')]. *)
Definition half_days : DateRange.self :=
  DateRange.mk_self (june 21) (fun _ => true) (mk_timedelta 0 43200 0).

(** ['9' * n] *)
Fixpoint nines (n : nat) : string :=
  match n with
  | O => EmptyString
  | S n' => String "9" (nines n')
  end.

(** The range of [daterange(june 21, to=june 24, step=2)]. *)
Definition odd_span : DateRange.self :=
  DateRange.mk_self (june 21) (fun d => __le__ d (june 24)) (mk_timedelta 2 0 0).

(** * Facts about the run time *)

(** ** The two temporal types on their time lines *)

Lemma date_add_tick (a : date) (t : timedelta) :
  __add__ a t =
  if (1 <=? toordinal a + days t) && (toordinal a + days t <=? MAXORDINAL)
  then Ok (fromordinal (toordinal a + days t))
  else Raise OverflowError.
Proof.
  simpl. unfold date_add, in_range.
  now replace (0 <? toordinal a + days t) with (1 <=? toordinal a + days t)
    by (destruct (Z.leb_spec 1 (toordinal a + days t)),
                 (Z.ltb_spec 0 (toordinal a + days t)); lia).
Qed.

Lemma datetime_add_tick (a : datetime) (t : timedelta) :
  let z := microsecond_count a + total_microseconds t in
  __add__ a t =
  if (US_PER_DAY <=? z) && (z <=? (MAXORDINAL + 1) * US_PER_DAY - 1)
  then Ok (mk_datetime z)
  else Raise OverflowError.
Proof.
  simpl. unfold datetime_add, in_range.
  set (z := microsecond_count a + total_microseconds t).
  replace ((0 <? z / US_PER_DAY) && (z / US_PER_DAY <=? MAXORDINAL))
    with ((US_PER_DAY <=? z) && (z <=? (MAXORDINAL + 1) * US_PER_DAY - 1));
    [reflexivity|].
  unfold US_PER_DAY, US_PER_SECOND, MAXORDINAL.
  destruct (Z.leb_spec (86400 * 1000000) z),
           (Z.leb_spec z ((3652059 + 1) * (86400 * 1000000) - 1)),
           (Z.ltb_spec 0 (z / (86400 * 1000000))),
           (Z.leb_spec (z / (86400 * 1000000)) 3652059);
    try reflexivity; exfalso;
    pose proof (Z.div_mod z (86400 * 1000000) ltac:(lia));
    pose proof (Z.mod_pos_bound z (86400 * 1000000) ltac:(lia)); lia.
Qed.

#[global] Instance date_line : TemporalLine date := {|
  tick := toordinal;
  of_tick := fromordinal;
  advance := days;
  first_tick := 1;
  last_tick := MAXORDINAL;
  tick_of_tick := fun z => eq_refl;
  of_tick_tick := fun a => match a with fromordinal z => eq_refl end;
  le_tick := fun a b => eq_refl;
  add_tick := date_add_tick
|}.

#[global] Instance datetime_line : TemporalLine datetime := {|
  tick := microsecond_count;
  of_tick := mk_datetime;
  advance := total_microseconds;
  first_tick := US_PER_DAY;
  last_tick := (MAXORDINAL + 1) * US_PER_DAY - 1;
  tick_of_tick := fun z => eq_refl;
  of_tick_tick := fun a => match a with mk_datetime z => eq_refl end;
  le_tick := fun a b => eq_refl;
  add_tick := datetime_add_tick
|}.

Module str_facts.
Import str.

Ltac each_char c :=
  destruct c as [[] [] [] [] [] [] [] []]; vm_compute; try congruence; auto.

Lemma decimal_word c : isdecimal c = true -> isword c = true.
Proof. each_char c. Qed.

Lemma decimal_not_space c : isdecimal c = true -> isspace c = false.
Proof. each_char c. Qed.

Lemma word_not_space c : isword c = true -> isspace c = false.
Proof. each_char c. Qed.

Lemma letter_word c : isletter c = true -> isword c = true.
Proof. each_char c. Qed.

Lemma letter_not_decimal c : isletter c = true -> isdecimal c = false.
Proof. each_char c. Qed.

Lemma lower_letter c : islower_ascii (lower_char c) = true -> isletter c = true.
Proof. each_char c. Qed.

Lemma newline_space c : ord c = 10 -> isspace c = true.
Proof. each_char c. Qed.

Lemma decimal_not_sign c :
  isdecimal c = true -> (ord c =? 45) = false /\ (ord c =? 43) = false.
Proof. each_char c. Qed.

Lemma comma_outside c :
  Ascii.eqb c "," = true ->
  isspace c = false /\ isword c = false /\ isdecimal c = false.
Proof. each_char c. Qed.

Lemma digit_value_nonneg c : isdecimal c = true -> 0 <= digit_value c.
Proof. each_char c. Qed.

Lemma app_nil_r s : s +:+ "" = s.
Proof. induction s; simpl; congruence. Qed.

Lemma app_assoc a b c : (a +:+ b) +:+ c = a +:+ b +:+ c.
Proof. induction a; simpl; congruence. Qed.

Lemma app_eq_nil a b : a +:+ b = "" -> a = "" /\ b = "".
Proof. destruct a; simpl; [auto | discriminate]. Qed.

Lemma length_app a b :
  String.length (a +:+ b) = (String.length a + String.length b)%nat.
Proof. induction a; simpl; congruence. Qed.

Lemma all_app p a b : all p (a +:+ b) = all p a && all p b.
Proof.
  induction a as [|c a IH]; simpl; [reflexivity|].
  rewrite IH. apply andb_assoc.
Qed.

Lemma all_impl (p q : ascii -> bool) s :
  (forall c, p c = true -> q c = true) -> all p s = true -> all q s = true.
Proof.
  intros Hpq. induction s as [|c s IH]; simpl; [reflexivity|].
  intros [Hc Hs]%andb_true_iff. rewrite (Hpq c Hc). simpl. auto.
Qed.

Lemma take_app a b : take (String.length a) (a +:+ b) = a.
Proof. induction a; simpl; [destruct b; reflexivity | congruence]. Qed.

Lemma drop_app a b : drop (String.length a) (a +:+ b) = b.
Proof. induction a; simpl; [reflexivity | assumption]. Qed.

Lemma take_drop n s : take n s +:+ drop n s = s.
Proof.
  revert s. induction n as [|n IH]; intros [|c s]; simpl; try reflexivity.
  now rewrite IH.
Qed.

Lemma run_stops p s : stops p s -> run p s = O.
Proof. destruct s as [|c s]; simpl; [reflexivity|]. now intros ->. Qed.

Lemma run_app p a b :
  all p a = true -> run p (a +:+ b) = (String.length a + run p b)%nat.
Proof.
  induction a as [|c a IH]; simpl; [reflexivity|].
  intros [Hc Ha]%andb_true_iff. rewrite Hc. now rewrite IH.
Qed.

Lemma all_take_run p n s : (n <= run p s)%nat -> all p (take n s) = true.
Proof.
  revert s. induction n as [|n IH]; intros s Hn; [destruct s; reflexivity|].
  destruct s as [|c s]; simpl in *; [lia|].
  destruct (p c) eqn:Hc; [|lia]. simpl. apply IH. lia.
Qed.

Lemma length_take_run p n s :
  (n <= run p s)%nat -> String.length (take n s) = n.
Proof.
  revert s. induction n as [|n IH]; intros s Hn; [destruct s; reflexivity|].
  destruct s as [|c s]; simpl in *; [lia|].
  destruct (p c) eqn:Hc; [|lia]. f_equal. apply IH. lia.
Qed.

Lemma take_nonempty n s p :
  (1 <= n <= run p s)%nat -> take n s <> "".
Proof.
  intros Hn Heq. pose proof (length_take_run p n s ltac:(lia)) as Hl.
  rewrite Heq in Hl. simpl in Hl. lia.
Qed.

(** A string that is not empty ends with a character. *)
Lemma last_char s :
  s <> "" -> exists s' c, s = s' +:+ String c "".
Proof.
  induction s as [|a s IH]; [congruence|]. intros _.
  destruct s as [|b s].
  - exists "", a. reflexivity.
  - destruct IH as (s' & c & Hs); [discriminate|].
    exists (String a s'), c. simpl. now rewrite <- Hs.
Qed.

Lemma all_last p s c :
  all p (s +:+ String c "") = true -> all p s = true /\ p c = true.
Proof.
  rewrite all_app. simpl. rewrite andb_true_r.
  now intros [? ?]%andb_true_iff.
Qed.

(** *** strip *)

Lemma lstrip_spaces g s : all isspace g = true -> lstrip (g +:+ s) = lstrip s.
Proof.
  induction g as [|c g IH]; simpl; [reflexivity|].
  intros [Hc Hg]%andb_true_iff. rewrite Hc. auto.
Qed.

Lemma lstrip_stops s : stops isspace s -> lstrip s = s.
Proof. destruct s as [|c s]; simpl; [reflexivity|]. now intros ->. Qed.

Lemma rstrip_spaces g : all isspace g = true -> rstrip g = "".
Proof.
  induction g as [|c g IH]; simpl; [reflexivity|].
  intros [Hc Hg]%andb_true_iff. rewrite (IH Hg). now rewrite Hc.
Qed.

Lemma rstrip_core a c g :
  isspace c = false -> all isspace g = true ->
  rstrip (a +:+ String c g) = a +:+ String c "".
Proof.
  intros Hc Hg. induction a as [|x a IH]; simpl.
  - rewrite (rstrip_spaces g Hg). now rewrite Hc.
  - rewrite IH. destruct a; reflexivity.
Qed.

(** What [strip] returns does not end with whitespace. *)
Lemma rstrip_end s t c : rstrip s = t +:+ String c "" -> isspace c = false.
Proof.
  revert t. induction s as [|a s IH]; intros t; simpl.
  - destruct t; discriminate.
  - destruct (rstrip s) as [|b r] eqn:Hr.
    + destruct (isspace a) eqn:Ha; [destruct t; discriminate|].
      destruct t as [|x t]; simpl; intros Heq.
      * congruence.
      * injection Heq as _ Heq. destruct t; discriminate.
    + destruct t as [|x t]; simpl; intros Heq; [discriminate|].
      injection Heq as _ Heq. eauto.
Qed.

Lemma strip_end s t c : strip s = t +:+ String c "" -> isspace c = false.
Proof. apply rstrip_end. Qed.

Lemma strip_core l x r a c :
  all isspace l = true -> all isspace r = true ->
  stops isspace x -> x = a +:+ String c "" -> isspace c = false ->
  strip (l +:+ x +:+ r) = x.
Proof.
  intros Hl Hr Hx Hlast Hc. unfold strip.
  rewrite (lstrip_spaces l _ Hl).
  assert (Hne : x <> "") by (subst x; destruct a; discriminate).
  rewrite lstrip_stops.
  - subst x. rewrite app_assoc. simpl. now apply rstrip_core.
  - destruct x; [congruence|]. exact Hx.
Qed.

(** *** split *)

Lemma split_nocomma x : nocomma x = true -> split "," x = [x].
Proof.
  induction x as [|c x IH]; simpl; [reflexivity|].
  intros [Hc Hx]%andb_true_iff. apply negb_true_iff in Hc. rewrite Hc.
  now rewrite (IH Hx).
Qed.

Lemma split_app x rest :
  nocomma x = true ->
  split "," (x +:+ String "," rest) = x :: split "," rest.
Proof.
  induction x as [|c x IH]; simpl; [reflexivity|].
  intros [Hc Hx]%andb_true_iff. apply negb_true_iff in Hc. rewrite Hc.
  now rewrite (IH Hx).
Qed.

Lemma split_join xs :
  xs <> [] -> Forall (fun x => nocomma x = true) xs ->
  split "," (join "," xs) = xs.
Proof.
  induction xs as [|x xs IH]; [congruence|]. intros _ Hall.
  inversion Hall as [|? ? Hx Hxs]; subst.
  destruct xs as [|y xs].
  - simpl. now apply split_nocomma.
  - change (join "," (x :: y :: xs)) with (x +:+ "," +:+ join "," (y :: xs)).
    change ("," +:+ join "," (y :: xs)) with (String "," (join "," (y :: xs))).
    rewrite (split_app _ _ Hx). f_equal. now apply IH.
Qed.

Lemma nocomma_app a b : nocomma (a +:+ b) = nocomma a && nocomma b.
Proof. apply all_app. Qed.

Lemma all_nocomma p s :
  (forall c, Ascii.eqb c "," = true -> p c = false) ->
  all p s = true -> nocomma s = true.
Proof.
  intros Hp. apply all_impl. intros c Hc.
  destruct (Ascii.eqb c ",") eqn:E; [|reflexivity].
  rewrite (Hp c E) in Hc. discriminate.
Qed.

(** *** int *)

Lemma decimal_not_underscore c : isdecimal c = true -> (ord c =? 95) = false.
Proof. each_char c. Qed.

Lemma decimal_not_space_int c : isdecimal c = true -> isspace_int c = false.
Proof. each_char c. Qed.

Lemma space_int_not_digit c :
  isspace_int c = true -> isdecimal c = false /\ (ord c =? 95) = false.
Proof. each_char c. Qed.

Lemma newline_space_int c : ord c = 10 -> isspace_int c = true.
Proof. each_char c. Qed.

(** The digits of a literal are read to their end. *)
Lemma int_digits_decimal q rest : forall acc digits,
  all isdecimal q = true -> all isspace_int rest = true -> 0 <= acc ->
  exists n,
    int_digits acc digits false (q +:+ rest)
    = Some (n, (digits + String.length q)%nat, rest) /\ 0 <= n.
Proof.
  induction q as [|c q IH]; intros acc digits Hq Hrest Hacc.
  - exists acc. split; [|assumption]. rewrite Nat.add_0_r.
    destruct rest as [|x rest]; [reflexivity|]. simpl in Hrest.
    apply andb_true_iff in Hrest as [Hx _].
    cbn [String.append int_digits].
    now destruct (space_int_not_digit x Hx) as [-> ->].
  - simpl in Hq. apply andb_true_iff in Hq as [Hc Hq].
    cbn [String.append int_digits String.length]. rewrite Hc.
    destruct (IH (10 * acc + digit_value c) (S digits) Hq Hrest) as (n & Hn & Hpos).
    { pose proof (digit_value_nonneg c Hc). lia. }
    exists n. split; [|assumption]. rewrite Hn. do 3 f_equal. lia.
Qed.

Lemma strip_decimal q : all isdecimal q = true -> strip q = q.
Proof.
  intros Hq. destruct q as [|c0 q0] eqn:E; [reflexivity|]. rewrite <- E in *.
  destruct (last_char q) as (a & c & Hlast); [congruence|].
  pose proof Hq as Hq'. rewrite Hlast in Hq'. apply all_last in Hq' as [_ Hc].
  rewrite <- (strip_core "" q "" a c) at 2; auto.
  - now rewrite app_nil_r.
  - rewrite E in *. simpl in *. apply andb_true_iff in Hq as [H0 _].
    now apply decimal_not_space.
  - now apply decimal_not_space.
Qed.

(** Whitespace after the digits is left for [int] to look at. *)
Lemma int_digits_rest q rest : forall acc digits,
  all isdecimal q = true -> all isspace_int rest = true ->
  int_digits acc digits false (q +:+ rest)
  = match int_digits acc digits false q with
    | Some (n, d, _) => Some (n, d, rest)
    | None => None
    end.
Proof.
  induction q as [|c q IH]; intros acc digits Hq Hrest.
  - destruct rest as [|x rest]; [reflexivity|]. simpl in Hrest.
    apply andb_true_iff in Hrest as [Hx _].
    cbn [String.append int_digits].
    now destruct (space_int_not_digit x Hx) as [-> ->].
  - simpl in Hq. apply andb_true_iff in Hq as [Hc Hq].
    cbn [String.append int_digits]. rewrite Hc. now apply IH.
Qed.

(** [int] on digits, with whitespace after them or not: one value, unless
    the digits are more than [int] converts. *)
Lemma int_decimal_spaces q :
  q <> "" -> all isdecimal q = true ->
  exists n, 0 <= n /\
    forall rest, all isspace_int rest = true ->
      int (q +:+ rest) =
      if (MAX_STR_DIGITS <? String.length q)%nat
      then Raise (ValueError (Exceeds_the_limit (String.length q)))
      else Ok n.
Proof.
  intros Hne Hq.
  destruct (int_digits_decimal q "" 0 0 Hq eq_refl ltac:(lia)) as (n & Hn0 & Hpos).
  rewrite app_nil_r in Hn0.
  exists n. split; [assumption|]. intros rest Hrest.
  pose proof (int_digits_rest q rest 0 0%nat Hq Hrest) as Hn.
  rewrite Hn0 in Hn.
  unfold int. destruct q as [|c q]; [congruence|].
  pose proof Hq as Hq'. simpl in Hq'. apply andb_true_iff in Hq' as [Hc _].
  cbn [String.append run]. rewrite (decimal_not_space_int c Hc). cbn [drop].
  destruct (decimal_not_sign c Hc) as [-> ->].
  rewrite (decimal_not_underscore c Hc).
  change (String c (q +:+ rest)) with (String c q +:+ rest). rewrite Hn.
  cbn [Nat.add]. destruct (_ <? _)%nat; [reflexivity|].
  rewrite Hrest. cbn [String.length Nat.eqb orb negb]. f_equal. lia.
Qed.

Lemma int_decimal q :
  q <> "" -> all isdecimal q = true ->
  (String.length q <= MAX_STR_DIGITS)%nat ->
  exists n, int q = Ok n /\ 0 <= n.
Proof.
  intros Hne Hq Hlen. destruct (int_decimal_spaces q Hne Hq) as (n & Hpos & Hint).
  specialize (Hint "" eq_refl). rewrite app_nil_r in Hint.
  exists n. split; [|assumption]. rewrite Hint.
  now replace (MAX_STR_DIGITS <? String.length q)%nat with false
    by (symmetry; apply Nat.ltb_ge; lia).
Qed.

(** [int] refuses more digits than [MAX_STR_DIGITS]. *)
Lemma int_too_long q :
  all isdecimal q = true -> (MAX_STR_DIGITS < String.length q)%nat ->
  int q = Raise (ValueError (Exceeds_the_limit (String.length q))).
Proof.
  intros Hq Hlen.
  assert (Hne : q <> "") by (intros ->; simpl in Hlen; lia).
  destruct (int_decimal_spaces q Hne Hq) as (n & _ & Hint).
  specialize (Hint "" eq_refl). rewrite app_nil_r in Hint. rewrite Hint.
  now replace (MAX_STR_DIGITS <? String.length q)%nat with true
    by (symmetry; apply Nat.ltb_lt; lia).
Qed.

(** What [int] returns for digits is not negative, and the digits are
    within the limit. *)
Lemma int_decimal_inv q n :
  q <> "" -> all isdecimal q = true -> int q = Ok n ->
  0 <= n /\ (String.length q <= MAX_STR_DIGITS)%nat.
Proof.
  intros Hne Hq Hn. destruct (int_decimal_spaces q Hne Hq) as (n' & Hpos & Hint).
  specialize (Hint "" eq_refl). rewrite app_nil_r, Hn in Hint.
  destruct (Nat.ltb_spec MAX_STR_DIGITS (String.length q)); [discriminate|].
  injection Hint as ->. auto.
Qed.

(** A newline after the digits does not change what [int] gives. *)
Lemma int_newline q c :
  q <> "" -> all isdecimal q = true -> ord c = 10 ->
  int (q +:+ String c "") = int q.
Proof.
  intros Hne Hq Hc. destruct (int_decimal_spaces q Hne Hq) as (n & _ & Hint).
  rewrite (Hint (String c "")), <- (Hint ""), app_nil_r; [reflexivity.. |].
  simpl. now rewrite (newline_space_int c Hc).
Qed.

End str_facts.

Module re_facts.
Import str str_facts re.

Lemma backtrack_sound {A : Type} (f : nat -> option A) n tries a :
  backtrack f n tries = Some a ->
  exists i, (i <= n /\ n < i + tries)%nat /\ f i = Some a.
Proof.
  revert n. induction tries as [|t IH]; intros n; simpl; [discriminate|].
  destruct (f n) eqn:Hf.
  - intros [= ->]. exists n. split; [lia | assumption].
  - intros (i & Hi & Hfi)%IH. exists i. split; [lia | assumption].
Qed.

(** A successful match gave the first piece between [at_least] and the
    longest run of characters, and matched the other pieces on the rest. *)
Lemma match_pieces_step p ps s gs :
  match_pieces (p :: ps) s = Some gs ->
  exists n gs',
    (at_least p <= n <= run (member (cls p)) s)%nat /\
    match_pieces ps (drop n s) = Some gs' /\
    gs = if group p then take n s :: gs' else gs'.
Proof.
  simpl. intros (i & Hi & Hf)%backtrack_sound.
  destruct (match_pieces ps (drop i s)) as [gs'|] eqn:Hrest; [|discriminate].
  injection Hf as <-. exists i, gs'. repeat split; auto; lia.
Qed.

Lemma at_dollar_inv tail :
  at_dollar tail = true ->
  tail = "" \/ exists c, tail = String c "" /\ ord c = 10.
Proof.
  destruct tail as [|c [|? ?]]; simpl; intros Hd; try discriminate; auto.
  right. exists c. split; [reflexivity | lia].
Qed.

(** What [^(\d+)$] matches: digits, and maybe a newline after them. *)
Lemma digits_sound s gs :
  match_ [capture (plus d)] s = Some gs ->
  exists q, gs = [q] /\ q <> "" /\ all isdecimal q = true /\
    (s = q \/ exists c, s = q +:+ String c "" /\ ord c = 10).
Proof.
  intros (n & gs' & Hn & Hrest & ->)%match_pieces_step. simpl in *.
  destruct (at_dollar (drop n s)) eqn:Hd; [|discriminate].
  injection Hrest as <-. exists (take n s). repeat split.
  - now apply (take_nonempty n s isdecimal).
  - apply all_take_run. lia.
  - pose proof (take_drop n s) as Hs.
    apply at_dollar_inv in Hd as [Hd | (c & Hd & Hc)]; rewrite Hd in Hs.
    + left. now rewrite app_nil_r in Hs.
    + right. eauto.
Qed.

Lemma backtrack_first {A : Type} (f : nat -> option A) n tries a :
  (1 <= tries)%nat -> f n = Some a -> backtrack f n tries = Some a.
Proof. destruct tries; [lia|]. simpl. now intros _ ->. Qed.

Lemma backtrack_next {A : Type} (f : nat -> option A) n tries :
  f (S n) = None -> backtrack f (S n) (S tries) = backtrack f n tries.
Proof. simpl. now intros ->. Qed.

Lemma match_pieces_cons p ps s :
  match_pieces (p :: ps) s =
  backtrack
    (fun n =>
       match match_pieces ps (drop n s) with
       | Some groups => Some (if group p then take n s :: groups else groups)
       | None => None
       end)
    (run (member (cls p)) s) (S (run (member (cls p)) s) - at_least p).
Proof. reflexivity. Qed.

Lemma length_pos q : q <> "" -> (1 <= String.length q)%nat.
Proof. destruct q; [congruence | simpl; lia]. Qed.

Lemma run_all p q : all p q = true -> run p q = String.length q.
Proof.
  intros Hq. pose proof (run_app p q "" Hq) as Hrun.
  rewrite app_nil_r in Hrun. simpl in Hrun. lia.
Qed.

Lemma take_all q : take (String.length q) q = q.
Proof. pose proof (take_app q "") as E. now rewrite app_nil_r in E. Qed.

Lemma drop_all q : drop (String.length q) q = "".
Proof. pose proof (drop_app q "") as E. now rewrite app_nil_r in E. Qed.

(** The last piece of a pattern, on a string it matches whole. *)
Lemma last_piece_complete k q :
  q <> "" -> all (member k) q = true ->
  match_pieces [capture (plus k)] q = Some [q].
Proof.
  intros Hne Hq. rewrite match_pieces_cons. simpl cls. simpl at_least.
  rewrite (run_all _ _ Hq). pose proof (length_pos q Hne).
  apply backtrack_first; [lia|].
  rewrite drop_all, take_all. reflexivity.
Qed.

Lemma digits_complete q :
  q <> "" -> all isdecimal q = true -> match_ [capture (plus d)] q = Some [q].
Proof. intros. now apply (last_piece_complete d). Qed.

End re_facts.

(** * Facts about delta *)

Module delta_facts.
Import str str_facts re re_facts delta.

(** What [^(\d+)\s*(\w+)$] matches. *)
Lemma specifier_sound sp gs :
  match_ specifier_pattern sp = Some gs ->
  exists number gap token tail,
    gs = [number; token] /\
    shaped isword (number +:+ gap +:+ token) number gap token /\
    sp = (number +:+ gap +:+ token) +:+ tail /\
    at_dollar tail = true.
Proof.
  unfold match_, specifier_pattern.
  intros (n1 & gs1 & Hn1 & Hrest1 & ->)%match_pieces_step.
  apply match_pieces_step in Hrest1 as (n2 & gs2 & Hn2 & Hrest2 & ->).
  apply match_pieces_step in Hrest2 as (n3 & gs3 & Hn3 & Hrest3 & ->).
  simpl in *.
  set (s1 := drop n1 sp) in *. set (s2 := drop n2 s1) in *.
  destruct (at_dollar (drop n3 s2)) eqn:Hd; [|discriminate].
  injection Hrest3 as <-.
  exists (take n1 sp), (take n2 s1), (take n3 s2), (drop n3 s2).
  repeat split; auto.
  - now apply (take_nonempty n1 sp isdecimal).
  - apply all_take_run. lia.
  - apply all_take_run. lia.
  - now apply (take_nonempty n3 s2 isword).
  - apply all_take_run. lia.
  - rewrite !app_assoc. rewrite (take_drop n3 s2).
    subst s2. rewrite (take_drop n2 s1). subst s1.
    now rewrite (take_drop n1 sp).
Qed.

Lemma gap_token_complete gap token :
  all isspace gap = true -> token <> "" -> all isword token = true ->
  match_pieces [star s; capture (plus w)] (gap +:+ token) = Some [token].
Proof.
  intros Hg Hne Ht. rewrite match_pieces_cons. simpl cls. simpl at_least.
  rewrite (run_app _ _ _ Hg : run (member s) _ = _).
  rewrite (run_stops isspace token).
  2:{ destruct token as [|c t]; [exact I|]. simpl in *.
      apply andb_true_iff in Ht as [Hc _]. now apply word_not_space. }
  rewrite Nat.add_0_r. apply backtrack_first; [lia|].
  rewrite drop_app. now rewrite (last_piece_complete w token Hne Ht).
Qed.

(** The parser reads a specifier as its longest number and the token
    after it. *)
Lemma specifier_complete sp number token :
  reads_as sp number token ->
  match_ specifier_pattern sp = Some [number; token].
Proof.
  intros (gap & (-> & Hne & Hn & Hg & Hte & Ht) & Hlong).
  unfold match_, specifier_pattern. rewrite match_pieces_cons.
  simpl cls. simpl at_least. simpl group.
  rewrite (run_app _ _ _ Hn : run (member d) _ = _).
  pose proof (length_pos number Hne) as Hlen.
  destruct (gap +:+ token) as [|c rest] eqn:Hrest.
  { apply app_eq_nil in Hrest as [_ ->]. congruence. }
  destruct (isdecimal c) eqn:Hc.
  - (* the token is the last of the digits *)
    assert (gap = "") as ->.
    { destruct gap as [|x gap]; [reflexivity|]. simpl in *.
      injection Hrest as -> _. apply andb_true_iff in Hg as [Hx _].
      rewrite (decimal_not_space _ Hc) in Hx. discriminate. }
    simpl in Hrest. subst token. rewrite (Hlong eq_refl c rest eq_refl Hc) in *.
    simpl run. rewrite Hc. simpl run.
    replace (String.length number + 1)%nat with (S (String.length number)) by lia.
    replace (S (S (String.length number)) - 1)%nat
      with (S (String.length number)) by lia.
    rewrite backtrack_next.
    + apply backtrack_first; [lia|].
      rewrite drop_app, take_app.
      pose proof (gap_token_complete "" (String c "") Hg Hte Ht) as Hm.
      simpl String.append in Hm. now rewrite Hm.
    + replace (S (String.length number))
        with (String.length (number +:+ String c "")).
      * now rewrite drop_all.
      * rewrite length_app. simpl. lia.
  - rewrite (run_stops isdecimal (String c rest)) by exact Hc.
    rewrite Nat.add_0_r. apply backtrack_first; [lia|].
    rewrite <- Hrest. rewrite drop_app, take_app.
    now rewrite (gap_token_complete gap token).
Qed.

(** A stripped specifier without the shape is not matched. *)
Lemma no_shape_no_match x :
  ~ has_shape isword (strip x) -> match_ specifier_pattern (strip x) = None.
Proof.
  intros Hno. destruct (match_ specifier_pattern (strip x)) as [gs|] eqn:Hm;
    [|reflexivity].
  apply specifier_sound in Hm
      as (number & gap & token & tail & _ & Hshape & Hsp & Hd).
  apply at_dollar_inv in Hd as [-> | (c & -> & Hc)].
  - rewrite app_nil_r in Hsp. exfalso. apply Hno.
    exists number, gap, token. now rewrite Hsp.
  - apply strip_end in Hsp. rewrite (newline_space c Hc) in Hsp. discriminate.
Qed.

End delta_facts.

Module alias_facts.
Import str str_facts delta.

Lemma entries_ok : forallb entry_ok (map_to_list UNIT_ALIASES) = true.
Proof. vm_compute. reflexivity. Qed.

(** The aliases are words of small letters, and point to one of the five
    canonical names. *)
Lemma alias_lookup k c :
  UNIT_ALIASES !! k = Some c ->
  k <> "" /\ all islower_ascii k = true /\ c <> "" /\ c ∈ cnames.
Proof.
  intros Hk. apply elem_of_map_to_list in Hk.
  pose proof entries_ok as Hall. rewrite forallb_forall in Hall.
  apply list_elem_of_In in Hk. specialize (Hall _ Hk). unfold entry_ok in Hall.
  simpl in Hall.
  apply andb_true_iff in Hall as [Hall H4].
  apply andb_true_iff in Hall as [Hall H3].
  apply andb_true_iff in Hall as [H1 H2].
  apply negb_true_iff in H1. apply String.eqb_neq in H1.
  apply negb_true_iff in H3. apply String.eqb_neq in H3.
  apply bool_decide_eq_true in H4.
  repeat split; assumption.
Qed.

Lemma lower_nonempty a : lower a <> "" -> a <> "".
Proof. destruct a; [simpl; congruence | discriminate]. Qed.

Lemma lower_letters a :
  all islower_ascii (lower a) = true -> all isletter a = true.
Proof.
  induction a as [|c a IH]; simpl; [reflexivity|].
  intros [Hc Ha]%andb_true_iff. rewrite (lower_letter c Hc). simpl. auto.
Qed.

(** A token that lowers to an alias is a word of letters. *)
Lemma alias_token a c :
  UNIT_ALIASES !! lower a = Some c -> a <> "" /\ all isletter a = true.
Proof.
  intros (Hne & Hlow & _)%alias_lookup. split.
  - now apply lower_nonempty.
  - now apply lower_letters.
Qed.

Lemma cname_keyword c : c ∈ cnames -> c ∈ datetime.keywords.
Proof.
  unfold cnames, datetime.keywords. rewrite !elem_of_cons.
  intros [-> | [-> | [-> | [-> | [-> | []%elem_of_nil]]]]]; auto 10.
Qed.

End alias_facts.

Module loop_facts.
Import str str_facts re delta delta_facts alias_facts.

Lemma body_accepts kwargs c sp n :
  reads_unit c sp n ->
  body kwargs sp = Ok (<[c := default 0 (kwargs !! c) + n]> kwargs).
Proof.
  intros (number & token & Hr & Hn & Hc). unfold body.
  rewrite (specifier_complete _ _ _ Hr), Hn. cbn [bind]. rewrite Hc.
  destruct (alias_lookup _ _ Hc) as (_ & _ & Hne & _).
  apply String.eqb_neq in Hne. now rewrite Hne.
Qed.

Lemma reads_as_int sp number token :
  reads_as sp number token ->
  (String.length number <= MAX_STR_DIGITS)%nat ->
  exists n, int number = Ok n.
Proof.
  intros (gap & (_ & Hne & Hn & _) & _) Hlen.
  destruct (int_decimal number Hne Hn Hlen) as (n & Hi & _). eauto.
Qed.

Lemma body_invalid_unit kwargs sp number token :
  reads_as sp number token ->
  (String.length number <= MAX_STR_DIGITS)%nat ->
  UNIT_ALIASES !! lower token = None ->
  body kwargs sp = Raise (ValueError (Invalid_unit (lower token))).
Proof.
  intros Hr Hlen Hc. destruct (reads_as_int _ _ _ Hr Hlen) as (n & Hn).
  unfold body.
  rewrite (specifier_complete _ _ _ Hr), Hn. cbn [bind]. now rewrite Hc.
Qed.

(** A number of too many digits: [int] raises before the unit is looked
    up. *)
Lemma body_too_long kwargs sp number token :
  reads_as sp number token ->
  (MAX_STR_DIGITS < String.length number)%nat ->
  body kwargs sp
  = Raise (ValueError (Exceeds_the_limit (String.length number))).
Proof.
  intros Hr Hlen. unfold body. rewrite (specifier_complete _ _ _ Hr).
  destruct Hr as (gap & (_ & _ & Hn & _) & _).
  now rewrite (int_too_long number Hn Hlen).
Qed.

Lemma body_invalid_specifier kwargs x :
  ~ has_shape isword (strip x) ->
  body kwargs (strip x) =
  Raise (ValueError (Invalid_delta_specifier (strip x))).
Proof. intros Hno. unfold body. now rewrite (no_shape_no_match x Hno). Qed.

Lemma loop_app l1 l2 kwargs :
  loop (l1 ++ l2) kwargs = (kwargs' <- loop l1 kwargs ;; loop l2 kwargs').
Proof.
  revert kwargs. induction l1 as [|sp l1 IH]; intros kwargs; simpl; [reflexivity|].
  destruct (body kwargs sp); simpl; auto.
Qed.

Lemma loop_accepted l :
  Forall accepted l -> forall kwargs, exists kwargs', loop l kwargs = Ok kwargs'.
Proof.
  induction 1 as [|sp l (number & token & Hr & Hlen & c & Hc) _ IH];
    intros kwargs.
  - simpl. eauto.
  - destruct (reads_as_int _ _ _ Hr Hlen) as (n & Hn).
    cbn [loop]. rewrite (body_accepts kwargs c sp n) by (exists number, token; auto).
    cbn [bind]. apply IH.
Qed.

(** Specifiers of one unit add up under its canonical name. *)
Lemma loop_same_unit c l ns :
  Forall2 (reads_unit c) l ns ->
  forall kwargs,
    loop l kwargs =
    Ok (match l with
        | [] => kwargs
        | _ => <[c := default 0 (kwargs !! c) + sum ns]> kwargs
        end).
Proof.
  induction 1 as [|sp n l ns Hsp Hrest IH]; intros kwargs; [reflexivity|].
  cbn [loop]. rewrite (body_accepts kwargs c sp n Hsp). cbn [bind].
  rewrite IH. f_equal. destruct l as [|sp' l'].
  - inversion Hrest; subst. simpl. now rewrite Z.add_0_r.
  - rewrite lookup_insert_eq. cbn [default]. rewrite insert_insert_eq.
    f_equal. simpl. lia.
Qed.

Lemma total_cons c c' n cns :
  total c ((c', n) :: cns) = (if decide (c' = c) then n else 0) + total c cns.
Proof.
  unfold total. rewrite filter_cons. cbn [fst].
  destruct (decide (c' = c)); [rewrite fmap_cons|]; reflexivity.
Qed.

Lemma total_none c cns : Forall (fun cn => cn.1 <> c) cns -> total c cns = 0.
Proof.
  induction 1 as [|[c' n] cns Hne _ IH]; [reflexivity|].
  rewrite total_cons, IH. simpl in Hne. now destruct (decide (c' = c)).
Qed.

(** The loop adds the quantities up, each under its canonical name. *)
Lemma loop_totals l cns :
  Forall2 (fun sp cn => reads_unit cn.1 sp cn.2) l cns ->
  forall kwargs, exists kwargs',
    loop l kwargs = Ok kwargs' /\
    (forall c, default 0 (kwargs' !! c) = default 0 (kwargs !! c) + total c cns) /\
    (forall c, is_Some (kwargs' !! c) -> is_Some (kwargs !! c) \/ c ∈ cnames).
Proof.
  induction 1 as [|sp [c n] l cns Hsp _ IH]; intros kwargs.
  - exists kwargs. repeat split; auto. intros c. unfold total. simpl. lia.
  - cbn [fst snd] in Hsp. cbn [loop].
    rewrite (body_accepts kwargs c sp n Hsp). cbn [bind].
    destruct (IH (<[c := default 0 (kwargs !! c) + n]> kwargs))
      as (kwargs' & -> & Hsum & Hdom).
    exists kwargs'. split; [reflexivity|]. split.
    + intros k. rewrite Hsum, total_cons.
      destruct (decide (c = k)) as [->|Hne].
      * rewrite lookup_insert_eq. simpl. lia.
      * rewrite lookup_insert_ne by assumption. lia.
    + intros k Hk. destruct (Hdom k Hk) as [Hin | Hin]; [|now right].
      destruct (decide (c = k)) as [<-|Hne].
      * right. destruct Hsp as (? & ? & _ & _ & Hc).
        now apply alias_lookup in Hc.
      * rewrite lookup_insert_ne in Hin by assumption. now left.
Qed.

Lemma cname_alias c : c ∈ cnames -> UNIT_ALIASES !! lower c = Some c.
Proof.
  unfold cnames. rewrite !elem_of_cons.
  intros [-> | [-> | [-> | [-> | [-> | []%elem_of_nil]]]]];
    vm_compute; reflexivity.
Qed.

End loop_facts.

Module text_facts.
Import str str_facts re delta delta_facts alias_facts loop_facts.

Lemma comma_not_letter c : Ascii.eqb c "," = true -> isletter c = false.
Proof. each_char c. Qed.

Lemma letter_not_space c : isletter c = true -> isspace c = false.
Proof. each_char c. Qed.

(** The text of a specifier is read as its number and its unit name. *)
Lemma text_shape c sp :
  all isspace (lead sp) = true -> all isspace (gap sp) = true ->
  all isspace (trail sp) = true ->
  number sp <> "" -> all isdecimal (number sp) = true ->
  UNIT_ALIASES !! lower (unit_name sp) = Some c ->
  reads_as (strip (text sp)) (number sp) (unit_name sp) /\
  nocomma (text sp) = true.
Proof.
  intros Hl Hg Ht Hne Hn Hc.
  destruct (alias_token _ _ Hc) as [Hune Hu].
  destruct sp as [l q g u t]; simpl in *. unfold text; simpl. split.
  - destruct (last_char u Hune) as (u' & x & Hlast).
    assert (Hx : isspace x = false).
    { rewrite Hlast in Hu. apply all_last in Hu as [_ Hx].
      now apply letter_not_space. }
    assert (Hcore : strip (l +:+ q +:+ g +:+ u +:+ t) = q +:+ g +:+ u).
    { replace (l +:+ q +:+ g +:+ u +:+ t) with (l +:+ (q +:+ g +:+ u) +:+ t)
        by now rewrite !app_assoc.
      apply (strip_core l _ t (q +:+ g +:+ u') x); auto.
      - destruct q as [|d q]; [congruence|]. simpl in *.
        apply andb_true_iff in Hn as [Hd _]. now apply decimal_not_space.
      - rewrite Hlast. now rewrite !app_assoc. }
    rewrite Hcore. exists g. split.
    + repeat split; auto. apply (all_impl isletter); auto using letter_word.
    + intros _ d rest -> Hd. simpl in Hu. apply andb_true_iff in Hu as [Hd' _].
      rewrite (letter_not_decimal _ Hd') in Hd. discriminate.
  - rewrite !nocomma_app.
    rewrite (all_nocomma isspace l), (all_nocomma isdecimal q),
      (all_nocomma isspace g), (all_nocomma isletter u),
      (all_nocomma isspace t); auto;
      intros x Hx; try apply (comma_outside x Hx); now apply comma_not_letter.
Qed.

Lemma text_reads c sp n :
  specifier_of c sp n ->
  reads_unit c (strip (text sp)) n /\ nocomma (text sp) = true.
Proof.
  intros (Hl & Hg & Ht & Hne & Hn & Hint & Hc).
  destruct (text_shape c sp Hl Hg Ht Hne Hn Hc) as [Hr Hnc].
  split; [|assumption]. exists (number sp), (unit_name sp). auto.
Qed.

(** Parsing specifiers of one unit gives the timedelta of their sum. *)
Lemma new_same_unit c sps ns :
  Forall2 (specifier_of c) sps ns -> sps <> [] ->
  __new__ (join "," (text <$> sps)) = timedelta_kwargs {[c := sum ns]}.
Proof.
  intros Hall Hne. unfold __new__.
  rewrite split_join.
  - rewrite (loop_same_unit c _ ns).
    + destruct sps; [congruence|]. simpl. rewrite lookup_empty. simpl.
      now rewrite insert_empty.
    + clear Hne. induction Hall as [|sp n sps ns Hsp _ IH]; simpl; constructor; auto.
      now apply text_reads.
  - destruct sps; [congruence | discriminate].
  - clear Hne. induction Hall as [|sp n sps ns Hsp _ IH]; simpl; constructor; auto.
    apply (text_reads c sp n Hsp).
Qed.

(** Parsing specifiers gives the timedelta of the sums of their
    quantities, unit by unit. *)
Lemma new_totals sps cns :
  Forall2 (fun sp cn => specifier_of cn.1 sp cn.2) sps cns -> sps <> [] ->
  __new__ (join "," (text <$> sps))
  = timedelta_new (total "days" cns) (total "seconds" cns)
      (total "microseconds" cns) 0 (total "minutes" cns) (total "hours" cns) 0.
Proof.
  intros Hall Hne. unfold __new__.
  rewrite split_join.
  2:{ destruct sps; [congruence | discriminate]. }
  2:{ clear Hne. induction Hall as [|sp cn sps cns Hsp _ IH]; simpl;
        constructor; auto. apply (text_reads _ sp _ Hsp). }
  destruct (loop_totals (map strip (text <$> sps)) cns) with (kwargs := (∅ : gmap string Z))
    as (kwargs & -> & Hsum & Hdom).
  { clear Hne. induction Hall as [|sp cn sps cns Hsp _ IH]; simpl;
      constructor; auto. now apply text_reads. }
  assert (Hunits : Forall (fun cn => cn.1 ∈ cnames) cns).
  { clear Hne Hsum Hdom.
    induction Hall as [|sp cn sps cns (_ & _ & _ & _ & _ & _ & Hc) _ IH];
      constructor; auto. now apply alias_lookup in Hc. }
  assert (Hother : forall k, k ∉ cnames -> total k cns = 0).
  { intros k Hk. apply total_none. eapply Forall_impl; [exact Hunits|].
    intros cn Hcn Heq. simpl in Heq. subst k. contradiction. }
  cbn [bind]. unfold timedelta_kwargs. rewrite bool_decide_eq_true_2.
  - rewrite !Hsum, !lookup_empty. cbn [default].
    rewrite (Hother "milliseconds"), (Hother "weeks"); [reflexivity | |];
      unfold cnames; rewrite !elem_of_cons, elem_of_nil;
      intros [?|[?|[?|[?|[?|[]]]]]]; discriminate.
  - intros k Hk%elem_of_dom. apply elem_of_list_to_set.
    destruct (Hdom k Hk) as [[x Hx] | Hk']; [|now apply cname_keyword].
    rewrite lookup_empty in Hx. discriminate.
Qed.

(** One specifier written with a single space. *)
Lemma new_single c q a n :
  q <> "" -> all isdecimal q = true -> int q = Ok n ->
  UNIT_ALIASES !! lower a = Some c ->
  __new__ (q +:+ " " +:+ a) = timedelta_kwargs {[c := n]}.
Proof.
  intros Hne Hq Hn Hc.
  pose proof (new_same_unit c [mk_specifier "" q " " a ""] [n]) as Hnew.
  simpl in Hnew. unfold text in Hnew. simpl in Hnew.
  rewrite app_nil_r, Z.add_0_r in Hnew. apply Hnew; [|discriminate].
  constructor; [|constructor]. repeat split; auto.
Qed.

(** One specifier whose number has too many digits. *)
Lemma new_single_too_long c q a :
  all isdecimal q = true -> (MAX_STR_DIGITS < String.length q)%nat ->
  UNIT_ALIASES !! lower a = Some c ->
  __new__ (q +:+ " " +:+ a)
  = Raise (ValueError (Exceeds_the_limit (String.length q))).
Proof.
  intros Hq Hlen Hc.
  assert (Hne : q <> "") by (intros ->; simpl in Hlen; lia).
  destruct (text_shape c (mk_specifier "" q " " a "") eq_refl eq_refl eq_refl
              Hne Hq Hc) as [Hr Hnc].
  unfold text in Hr, Hnc. cbn [lead number gap unit_name trail] in Hr, Hnc.
  cbn [String.append] in Hr, Hnc. rewrite app_nil_r in Hr, Hnc.
  change (q +:+ " " +:+ a) with (q +:+ String " " a).
  unfold __new__. rewrite (split_nocomma _ Hnc). cbn [map loop].
  now rewrite (body_too_long ∅ _ q a Hr Hlen).
Qed.

Lemma alias_table_ok :
  forallb
    (fun e => forallb (fun k => bool_decide (UNIT_ALIASES !! k = Some e.1)) e.2)
    alias_table = true.
Proof. vm_compute. reflexivity. Qed.

Lemma alias_table_lookup c aliases k :
  (c, aliases) ∈ alias_table -> k ∈ aliases -> UNIT_ALIASES !! k = Some c.
Proof.
  intros Hc Hk. pose proof alias_table_ok as Hall.
  rewrite forallb_forall in Hall. apply list_elem_of_In in Hc.
  specialize (Hall _ Hc). cbn [fst snd] in Hall.
  rewrite forallb_forall in Hall. apply list_elem_of_In in Hk.
  specialize (Hall _ Hk). now apply bool_decide_eq_true in Hall.
Qed.

Lemma alias_table_all :
  forallb in_alias_table (map_to_list UNIT_ALIASES) = true.
Proof. vm_compute. reflexivity. Qed.

(** The table of the specification and [UNIT_ALIASES] hold the same
    aliases for the same canonical names. *)
Lemma alias_table_exact k c :
  UNIT_ALIASES !! k = Some c <->
  exists aliases, (c, aliases) ∈ alias_table /\ k ∈ aliases.
Proof.
  split.
  - intros Hk%elem_of_map_to_list%list_elem_of_In.
    pose proof alias_table_all as Hall. rewrite forallb_forall in Hall.
    specialize (Hall _ Hk). unfold in_alias_table in Hall. cbn [fst snd] in Hall.
    apply existsb_exists in Hall as ([c' aliases] & Hrow & Hok).
    cbn [fst snd] in Hok. apply andb_true_iff in Hok as [Hc Hin].
    apply String.eqb_eq in Hc. subst c'.
    apply existsb_exists in Hin as (k' & Hk' & Heq).
    apply String.eqb_eq in Heq. subst k'.
    exists aliases. split; apply list_elem_of_In; assumption.
  - intros (aliases & Hc & Hk). now apply (alias_table_lookup c aliases).
Qed.

End text_facts.

(** * Facts about DateRange *)

Module range_facts.
Import DateRange.

Section any_temporal.
Context {T : Type} `{Temporal T}.

(** A call that raises leaves the instance as it was. *)
Lemma next_raise (r : self) e : (next r).1 = Raise e -> (next r).2 = r.
Proof.
  unfold next. destruct (condition r (date r)); [|reflexivity].
  destruct (__add__ (date r) (step r)); simpl; [discriminate | reflexivity].
Qed.

Lemma next_stop_inv (r : self) :
  (next r).1 = Raise StopIteration -> next r = (Raise StopIteration, r).
Proof.
  intros Hr. pose proof (next_raise r _ Hr) as Hs.
  destruct (next r) as [x r']. simpl in *. congruence.
Qed.

Lemma calls_exhausted (r : self) k :
  (next r).1 = Raise StopIteration ->
  calls k r = (replicate k (Raise StopIteration), r).
Proof.
  intros Hr. induction k as [|k IH]; simpl; [reflexivity|].
  rewrite (next_stop_inv r Hr), IH. reflexivity.
Qed.

Lemma calls_app a b (r : self) :
  calls (a + b) r =
  ((calls a r).1 ++ (calls b (calls a r).2).1, (calls b (calls a r).2).2).
Proof.
  revert r. induction a as [|a IH]; intros r; simpl.
  - now destruct (calls b r).
  - destruct (next r) as [x r']. rewrite IH.
    destruct (calls a r') as [l1 r1]. simpl. now destruct (calls b r1).
Qed.

(** What [__init__] builds. *)
Lemma init_inv (start : T) (to : option T) (st : object) (r : self) :
  __init__ start to st = Ok r ->
  date r = start /\
  condition r =
    match to with
    | None => fun _ => true
    | Some to => fun d => __le__ d to
    end.
Proof.
  unfold __init__.
  match goal with |- bind ?x _ = _ -> _ => destruct x as [[] |] end;
    simpl; intros; simplify_eq; auto.
Qed.

End any_temporal.

Section on_a_line.
Context {T : Type} `{TemporalLine T}.

Lemma values_from_S z s n :
  values_from z s (S n) = of_tick z :: values_from (z + s) s n.
Proof.
  unfold values_from. simpl. rewrite Z.add_0_r. f_equal.
  rewrite <- seq_shift, map_map. apply map_ext. intros i. f_equal. lia.
Qed.

Lemma progression_values (a : T) s n : progression a s n = values_from (tick a) s n.
Proof. reflexivity. Qed.

Lemma next_ok (r : self) :
  condition r (date r) = true ->
  representable (tick (date r) + advance (step r)) ->
  next r =
  (Ok (date r),
   mk_self (of_tick (tick (date r) + advance (step r))) (condition r) (step r)).
Proof.
  intros Hc [Hlo Hhi]. unfold next. rewrite Hc, add_tick.
  apply Z.leb_le in Hlo, Hhi. now rewrite Hlo, Hhi.
Qed.

(** A call never raises StopIteration while the condition holds. *)
Lemma next_no_stop (r : self) :
  condition r (date r) = true -> (next r).1 <> Raise StopIteration.
Proof.
  intros Hc. unfold next. rewrite Hc, add_tick.
  now destruct (_ && _).
Qed.

Lemma next_condition (r : self) : condition (next r).2 = condition r.
Proof.
  unfold next. destruct (condition r (date r)); [|reflexivity].
  now destruct (__add__ (date r) (step r)).
Qed.

(** [n] calls in a row return the values of the progression, as long as
    the condition holds for them and the next value is representable. *)
Lemma calls_values n : forall z cond td,
  (forall i, 0 <= i < Z.of_nat n -> cond (of_tick (z + i * advance td)) = true) ->
  (forall i, 1 <= i <= Z.of_nat n -> representable (z + i * advance td)) ->
  calls n (mk_self (of_tick z) cond td) =
  (Ok <$> values_from z (advance td) n,
   mk_self (of_tick (z + Z.of_nat n * advance td)) cond td).
Proof.
  induction n as [|n IH]; intros z cond td Hcond Hrep.
  - simpl. now rewrite Z.add_0_r.
  - cbn [calls]. rewrite next_ok; cbn [date condition step].
    + rewrite tick_of_tick, IH.
      * rewrite values_from_S. cbn [fmap list_fmap]. do 3 f_equal. lia.
      * intros i Hi. replace (z + advance td + i * advance td)
          with (z + (i + 1) * advance td) by lia. apply Hcond. lia.
      * intros i Hi. replace (z + advance td + i * advance td)
          with (z + (i + 1) * advance td) by lia. apply Hrep. lia.
    + specialize (Hcond 0 ltac:(lia)). now rewrite Z.add_0_r in Hcond.
    + rewrite tick_of_tick. specialize (Hrep 1 ltac:(lia)).
      now rewrite Z.mul_1_l in Hrep.
Qed.

Lemma calls_no_stop m : forall r : self,
  (forall v, condition r v = true) -> Raise StopIteration ∉ (calls m r).1.
Proof.
  induction m as [|m IH]; intros r Hc; simpl; [apply not_elem_of_nil|].
  pose proof (next_no_stop r (Hc _)) as Hne.
  pose proof (next_condition r) as Hnc.
  destruct (next r) as [x r']. simpl in *.
  specialize (IH r'). destruct (calls m r') as [l r'']. simpl in *.
  apply not_elem_of_cons. split; [congruence|].
  apply IH. intros v. rewrite Hnc. apply Hc.
Qed.

End on_a_line.
End range_facts.

(** * The claims about DateRange *)

Section range_claims.
Import DateRange range_facts.

Lemma values_from_length {T : Type} `{TemporalLine T} z s n :
  length (values_from z s n : list T) = n.
Proof. unfold values_from. now rewrite length_map, length_seq. Qed.

Lemma values_from_last {T : Type} `{TemporalLine T} z s n :
  last (values_from z s (S n) : list T) = Some (of_tick (z + Z.of_nat n * s)).
Proof.
  unfold values_from. rewrite seq_S, map_app. simpl. apply last_snoc.
Qed.

Lemma values_from_lookup {T : Type} `{TemporalLine T} z s n i :
  (i < n)%nat ->
  (values_from z s n : list T) !! i = Some (of_tick (z + Z.of_nat i * s)).
Proof.
  intros Hi. unfold values_from.
  change (map ?f ?l) with (f <$> l). rewrite list_lookup_fmap.
  now rewrite lookup_seq_lt.
Qed.

(** C1 (amended): a bounded range whose step advances its values by
    [s > 0] ticks (the days of the step for dates, the whole step for
    datetimes), with [bound = start + k * s] for some [k >= 0] and
    [bound + s] still representable, returns exactly the [k + 1] values
    [start], [start + s], ..., [bound] and raises StopIteration on every
    call after them. *)
Theorem C1_bounded_range_values {T : Type} `{TemporalLine T}
    (start bound : T) (st : object) (r : self) (s k : Z) (m : nat) :
  __init__ start (Some bound) st = Ok r ->
  advance (step r) = s -> 0 < s -> 0 <= k ->
  tick bound - tick start = k * s ->
  representable (tick start) -> representable (tick bound + s) ->
  let values := progression start s (Z.to_nat (k + 1)) in
  (calls (Z.to_nat (k + 1) + m) r).1
    = (Ok <$> values) ++ replicate m (Raise StopIteration) /\
  length values = Z.to_nat (k + 1) /\
  Forall (fun v => __le__ v bound = true) values /\
  last values = Some bound.
Proof.
  intros Hinit Hs Hpos Hk Hspan [Hlo _] [_ Hhi] values.
  apply init_inv in Hinit as [Hdate Hcond].
  destruct r as [d cond td]. cbn [date condition step] in *. subst d cond s.
  set (s := advance td) in *. set (n := Z.to_nat (k + 1)).
  assert (Hn : Z.of_nat n = k + 1) by (subst n; lia).
  assert (Hcalls : calls n (mk_self start (fun d => __le__ d bound) td) =
    (Ok <$> values,
     mk_self (of_tick (tick bound + s)) (fun d => __le__ d bound) td)).
  { rewrite <- (of_tick_tick start) at 1. rewrite calls_values.
    - subst values. rewrite progression_values. do 3 f_equal. fold s. nia.
    - intros i Hi. fold s. rewrite le_tick, tick_of_tick. apply Z.leb_le. nia.
    - intros i Hi. fold s. unfold representable. nia. }
  repeat split.
  - rewrite calls_app, Hcalls. cbn [fst snd]. f_equal.
    rewrite calls_exhausted; [reflexivity|].
    unfold next. cbn [condition date].
    rewrite le_tick, tick_of_tick.
    now replace (tick bound + s <=? tick bound) with false
      by (symmetry; apply Z.leb_gt; lia).
  - apply values_from_length.
  - subst values. rewrite progression_values. unfold values_from.
    apply Forall_forall. intros v Hv.
    apply list_elem_of_fmap_1 in Hv as (i & -> & Hi%elem_of_seq).
    rewrite le_tick, tick_of_tick. apply Z.leb_le. nia.
  - subst values. rewrite progression_values.
    replace (Z.to_nat (k + 1)) with (S (Z.to_nat k)) by lia.
    rewrite values_from_last.
    rewrite <- (of_tick_tick bound), Z2Nat.id by lia.
    now replace (tick start + k * s) with (tick bound) by lia.
Qed.

(** C2: once a call of [next] raises StopIteration, every later call on
    that range raises StopIteration as well. *)
Theorem C2_exhaustion_is_permanent {T : Type} `{Temporal T}
    (r : self) (k : nat) :
  (next r).1 = Raise StopIteration ->
  (calls k (next r).2).1 = replicate k (Raise StopIteration).
Proof.
  intros Hr. rewrite (next_raise r _ Hr). now rewrite calls_exhausted.
Qed.

(** C8 (amended): in an unbounded range with a step of one day, call
    number [n] (from 0) returns the value [n] days after the start,
    provided the value [n + 1] days after the start is still
    representable; and no call ever raises StopIteration, whatever the
    start and however many calls are made. *)
Theorem C8_unbounded_daily_values {T : Type} `{TemporalLine T}
    (D : T) (st : object) (r : self) (s : Z) :
  __init__ D None st = Ok r ->
  step r = mk_timedelta 1 0 0 -> advance (mk_timedelta 1 0 0) = s ->
  (forall n : nat,
     representable (tick D) ->
     representable (tick D + (Z.of_nat n + 1) * s) ->
     (calls (S n) r).1 !! n
     = Some (Ok (of_tick (tick D + Z.of_nat n * s)))) /\
  (forall m, Raise StopIteration ∉ (calls m r).1).
Proof.
  intros Hinit Hstep Hs.
  apply init_inv in Hinit as [Hdate Hcond].
  destruct r as [d cond td]. cbn [date condition step] in *.
  subst d cond td s. split.
  - intros n [Hlo Hhi] [Hlo' Hhi'].
    pose proof (calls_values (S n) (tick D) (fun _ => true)
                  (mk_timedelta 1 0 0)) as Hcalls.
    rewrite of_tick_tick in Hcalls. rewrite Hcalls.
    + cbn [fst]. rewrite list_lookup_fmap, values_from_lookup by lia.
      reflexivity.
    + reflexivity.
    + intros i Hi. unfold representable. nia.
  - intros m. now apply calls_no_stop.
Qed.

(** C9: a call of [next] that raises (StopIteration in particular) leaves
    the instance exactly as it was, its date and its step included: the
    date changes only in calls that return a value. *)
Theorem C9_failed_call_keeps_state {T : Type} `{Temporal T}
    (r : self) (e : exception) :
  (next r).1 = Raise e ->
  (next r).2 = r /\ date (next r).2 = date r /\ step (next r).2 = step r.
Proof. intros Hr. rewrite (next_raise r e Hr). auto. Qed.

(** C10: a bounded range whose start is after its bound raises
    StopIteration on the first call, and on every call: it returns no
    value. *)
Theorem C10_start_after_bound {T : Type} `{TemporalLine T}
    (start bound : T) (st : object) (r : self) (k : nat) :
  tick bound < tick start ->
  __init__ start (Some bound) st = Ok r ->
  (next r).1 = Raise StopIteration /\
  (calls k r).1 = replicate k (Raise StopIteration).
Proof.
  intros Hlt Hinit. apply init_inv in Hinit as [Hdate Hcond].
  assert (Hstop : (next r).1 = Raise StopIteration).
  { unfold next. rewrite Hcond, Hdate, le_tick.
    now replace (tick start <=? tick bound) with false
      by (symmetry; apply Z.leb_gt; lia). }
  split; [assumption|]. now rewrite calls_exhausted.
Qed.

End range_claims.

(** * The claims about steps given as strings *)

Section step_claims.
Import str str_facts re re_facts DateRange.

Lemma ord_newline c : ord c = 10 -> c = "010"%char.
Proof. each_char c. Qed.

(** A string step that is not a run of digits, with or without one
    newline after them, and on which [delta] raises a ValueError, makes
    [__init__] raise the TypeError "Invalid step value" on the string
    itself: the ValueError of the parser is not passed on. *)
Lemma parse_failure_is_swallowed {T : Type} `{Temporal T}
    (start : T) (to : option T) (s : string) (m : message) :
  ~ (exists q, q <> "" /\ all isdecimal q = true /\
               (s = q \/ s = q +:+ String "010" "")) ->
  delta.__new__ s = Raise (ValueError m) ->
  __init__ start to (Str s) = Raise (TypeError (Invalid_step_value (Str s))).
Proof.
  intros Hno Hdelta. unfold __init__.
  destruct (match_ [capture (plus d)] s) as [gs|] eqn:Hm.
  - exfalso. apply Hno.
    apply digits_sound in Hm as (q & _ & Hne & Hq & [Hs | (c & Hs & Hc)]).
    + exists q. auto.
    + exists q. rewrite (ord_newline c Hc) in Hs. auto.
  - rewrite Hdelta. reflexivity.
Qed.

(** C5: the integer step [n], a string step of digits that reads as [n],
    and the step [timedelta(days=n)] build the same range, whatever the
    start and the bound: the three produce the same values and are
    exhausted at the same call. *)
Theorem C5_integer_steps_are_days {T : Type} `{Temporal T}
    (start : T) (to : option T) (n : Z) (s : string) (td : timedelta) :
  s <> "" -> all isdecimal s = true -> int s = Ok n ->
  timedelta_new n 0 0 0 0 0 0 = Ok td ->
  exists r : self,
    step r = td /\
    __init__ start to (Int n) = Ok r /\
    __init__ start to (Str s) = Ok r /\
    __init__ start to (Timedelta td) = Ok r /\
    forall k,
      outcomes k (__init__ start to (Int n))
        = outcomes k (__init__ start to (Timedelta td)) /\
      outcomes k (__init__ start to (Str s))
        = outcomes k (__init__ start to (Timedelta td)).
Proof.
  intros Hne Hs Hint Htd.
  assert (Hi : __init__ start to (Int n) = __init__ start to (Timedelta td)).
  { unfold __init__. now rewrite Htd. }
  assert (Hstr : __init__ start to (Str s) = __init__ start to (Timedelta td)).
  { unfold __init__. rewrite (digits_complete s Hne Hs), Hint. cbn [bind].
    now rewrite Htd. }
  eexists. split; [|split; [|split; [|split]]].
  5: { intros k. now rewrite Hi, Hstr. }
  2: { rewrite Hi. reflexivity. }
  2: { rewrite Hstr. reflexivity. }
  2: reflexivity.
  reflexivity.
Qed.

End step_claims.

(** * The claims about delta *)

Section delta_claims.
Import str str_facts re re_facts delta delta_facts alias_facts loop_facts
  text_facts.

Lemma all_drop p n s : all p s = true -> all p (drop n s) = true.
Proof.
  revert s. induction n as [|n IH]; intros [|c s]; simpl; auto.
  intros [_ Hs]%andb_true_iff. auto.
Qed.

Lemma stops_drop_run p s : stops p (drop (run p s) s).
Proof.
  induction s as [|c s IH]; simpl; [exact I|].
  destruct (p c) eqn:Hc; simpl; auto.
Qed.

Lemma drop_run_nil p s : drop (run p s) s = "" -> all p s = true.
Proof.
  induction s as [|c s IH]; simpl; [reflexivity|].
  destruct (p c) eqn:Hc; simpl; [auto | discriminate].
Qed.

(** A specifier with the shape has a reading: the one with the longest
    number. *)
Lemma shape_reads sp :
  has_shape isword sp -> exists number token, reads_as sp number token.
Proof.
  intros (n & g & u & -> & Hne & Hn & Hg & Hue & Hu).
  destruct g as [|x g].
  2:{ exists n, u, (String x g). split; [repeat split; auto | intros [=]]. }
  simpl. destruct (all isdecimal u) eqn:Hud.
  - destruct (last_char u Hue) as (u' & c & ->).
    apply all_last in Hud as [Hu' Hc].
    exists (n +:+ u'), (String c ""), "". split.
    + repeat split; try discriminate.
      * simpl. now rewrite !app_assoc.
      * intros [? ?]%app_eq_nil. congruence.
      * now rewrite all_app, Hn, Hu'.
      * simpl. now rewrite (decimal_word c Hc).
    + intros _ c' rest [= -> ->] _. reflexivity.
  - set (k := run isdecimal u).
    exists (n +:+ take k u), (drop k u), "". split.
    + repeat split; try reflexivity.
      * simpl. now rewrite app_assoc, take_drop.
      * intros [? ?]%app_eq_nil. congruence.
      * rewrite all_app, Hn. simpl. now apply all_take_run.
      * intros Hd. apply drop_run_nil in Hd. congruence.
      * now apply all_drop.
    + intros _ c rest Hd Hc. pose proof (stops_drop_run isdecimal u) as Hst.
      fold k in Hst. rewrite Hd in Hst. simpl in Hst. congruence.
Qed.

(** C3 (amended): the first specifier, from the left, that the parser does
    not accept decides the error. If its stripped text is not a number,
    optional whitespace and a unit token of word characters (letters,
    digits, underscores), the parse fails with "Invalid delta specifier".
    Otherwise the parser reads it as its longest number and a unit token,
    and if the number has no more digits than [int] converts and the token
    in small letters is not in the alias table the parse fails with
    "Invalid unit". A number of more digits fails with the ValueError of
    [int], whatever the token. *)
Theorem C3_first_rejected_specifier
    (spec : string) (before after : list string) (sp : string) :
  map strip (split "," spec) = before ++ sp :: after ->
  Forall accepted before ->
  (~ has_shape isword sp ->
   __new__ spec = Raise (ValueError (Invalid_delta_specifier sp))) /\
  (has_shape isword sp -> exists number token, reads_as sp number token) /\
  (forall number token,
     reads_as sp number token ->
     (String.length number <= MAX_STR_DIGITS)%nat ->
     UNIT_ALIASES !! lower token = None ->
     __new__ spec = Raise (ValueError (Invalid_unit (lower token)))) /\
  (forall number token,
     reads_as sp number token ->
     (MAX_STR_DIGITS < String.length number)%nat ->
     __new__ spec
     = Raise (ValueError (Exceeds_the_limit (String.length number)))).
Proof.
  intros Hmap Hbefore.
  destruct (loop_accepted before Hbefore ∅) as (kwargs & Hloop).
  assert (Hnew : forall e, body kwargs sp = Raise e -> __new__ spec = Raise e).
  { intros e He. unfold __new__. rewrite Hmap, loop_app, Hloop. cbn [bind loop].
    now rewrite He. }
  assert (Hsp : exists x, sp = strip x).
  { assert (Hin : sp ∈ map strip (split "," spec)).
    { rewrite Hmap. apply elem_of_app. right. apply list_elem_of_here. }
    apply list_elem_of_fmap_1 in Hin as (x & -> & _). eauto. }
  split; [|split; [|split]].
  - intros Hno. apply Hnew. destruct Hsp as (x & ->).
    now apply body_invalid_specifier.
  - apply shape_reads.
  - intros number token Hr Hlen Hnone. apply Hnew.
    exact (body_invalid_unit kwargs sp number token Hr Hlen Hnone).
  - intros number token Hr Hlen. apply Hnew.
    exact (body_too_long kwargs sp number token Hr Hlen).
Qed.

Lemma total_single c cns k :
  Forall (fun cn => cn.1 = c) cns -> total k cns = total k [(c, total c cns)].
Proof.
  intros Hall. rewrite total_cons. unfold total at 3. simpl.
  destruct (decide (c = k)) as [<-|Hne]; [lia|].
  rewrite total_none; [reflexivity|].
  eapply Forall_impl; [exact Hall|]. intros cn Hcn. simpl in *. congruence.
Qed.

(** C6: the quantities of the specifiers add up under their canonical
    units: parsing specifiers separated by commas gives the timedelta of
    the sums, unit by unit. So when all the specifiers name the same
    canonical unit, the result is what parsing the single specifier with
    the sum of their quantities and the canonical name gives. *)
Theorem C6_same_unit_accumulates
    (sps : list specifier) (cns : list (string * Z)) :
  Forall2 (fun sp cn => specifier_of cn.1 sp cn.2) sps cns -> sps <> [] ->
  __new__ (join "," (text <$> sps))
  = timedelta_new (total "days" cns) (total "seconds" cns)
      (total "microseconds" cns) 0 (total "minutes" cns) (total "hours" cns) 0
  /\
  forall c q,
    Forall (fun cn => cn.1 = c) cns ->
    q <> "" -> all isdecimal q = true -> int q = Ok (total c cns) ->
    __new__ (join "," (text <$> sps)) = __new__ (q +:+ " " +:+ c).
Proof.
  intros Hall Hne. split; [now apply new_totals|].
  intros c q Hsame Hqne Hq Hint.
  assert (Hc : UNIT_ALIASES !! lower c = Some c).
  { apply cname_alias. destruct Hall as [|sp [c' n] ? ? Hsp _]; [congruence|].
    inversion Hsame; subst. destruct Hsp as (_ & _ & _ & _ & _ & _ & Hc).
    now apply alias_lookup in Hc. }
  pose proof (new_totals [mk_specifier "" q " " c ""] [(c, total c cns)])
    as Hsingle.
  simpl in Hsingle. unfold text in Hsingle. simpl in Hsingle.
  rewrite app_nil_r in Hsingle.
  change (q +:+ " " +:+ c) with (q +:+ String " " c).
  rewrite Hsingle, (new_totals sps cns Hall Hne).
  - now rewrite (total_single c cns "days" Hsame),
      (total_single c cns "seconds" Hsame),
      (total_single c cns "microseconds" Hsame),
      (total_single c cns "minutes" Hsame),
      (total_single c cns "hours" Hsame).
  - constructor; [|constructor]. repeat split; auto.
  - discriminate.
Qed.

(** C7: for every alias of a canonical unit in the table of the
    specification, written in any letter case, and every quantity,
    parsing the quantity with the alias gives what parsing it with the
    canonical name gives: the timedelta of that many units, when the
    quantity has no more digits than [int] converts. *)
Theorem C7_alias_and_case
    (c : string) (aliases : list string) (a q : string) :
  (c, aliases) ∈ alias_table -> lower a ∈ aliases ->
  q <> "" -> all isdecimal q = true ->
  __new__ (q +:+ " " +:+ a) = __new__ (q +:+ " " +:+ c) /\
  ((String.length q <= MAX_STR_DIGITS)%nat ->
   exists n, int q = Ok n /\
             __new__ (q +:+ " " +:+ a) = timedelta_kwargs {[c := n]}).
Proof.
  intros Hc Ha Hne Hq.
  pose proof (alias_table_lookup c aliases (lower a) Hc Ha) as Hlook.
  assert (Hcn : c ∈ cnames) by now apply alias_lookup in Hlook.
  split.
  - destruct (Nat.le_gt_cases (String.length q) MAX_STR_DIGITS) as [Hlen|Hlen].
    + destruct (int_decimal q Hne Hq Hlen) as (n & Hn & _).
      rewrite (new_single c q a n), (new_single c q c n);
        auto using cname_alias.
    + rewrite (new_single_too_long c q a), (new_single_too_long c q c);
        auto using cname_alias.
  - intros Hlen. destruct (int_decimal q Hne Hq Hlen) as (n & Hn & _).
    exists n. split; [assumption|]. now apply new_single.
Qed.

End delta_claims.

(** * The examples of the documentation *)

Section examples.
Import DateRange.

Example delta_typical :
  delta.__new__ "1 day, 4 hours, 5 minutes, 3 seconds, 120 microseconds"
  = timedelta_new 1 3 120 0 5 4 0.
Proof. vm_compute. reflexivity. Qed.

Example delta_unknown_unit :
  delta.__new__ "2 fortnights" = Raise (ValueError (Invalid_unit "fortnights")).
Proof. vm_compute. reflexivity. Qed.

Example delta_no_number :
  delta.__new__ "two days"
  = Raise (ValueError (Invalid_delta_specifier "two days")).
Proof. vm_compute. reflexivity. Qed.

Example daterange_g1 :
  outcomes 6 (daterange (june 21) None None)
  = Ok [Ok (june 21); Ok (june 22); Ok (june 23); Ok (june 24); Ok (june 25);
        Ok (june 26)].
Proof. vm_compute. reflexivity. Qed.

Example daterange_g2 :
  outcomes 6 (daterange (june 21) (Some (june 25)) None)
  = Ok [Ok (june 21); Ok (june 22); Ok (june 23); Ok (june 24); Ok (june 25);
        Raise StopIteration].
Proof. vm_compute. reflexivity. Qed.

Example daterange_g4 :
  outcomes 4 (daterange (june 21) (Some (june 25)) (Some (Str "2 days")))
  = Ok [Ok (june 21); Ok (june 23); Ok (june 25); Raise StopIteration].
Proof. vm_compute. reflexivity. Qed.

(** On datetimes the whole step counts: twelve hours at a time. *)
Example daterange_datetimes :
  outcomes 4 (daterange (mk_datetime (733579 * US_PER_DAY))
                        (Some (mk_datetime (733580 * US_PER_DAY)))
                        (Some (Str "12 hours")))
  = Ok [Ok (mk_datetime (733579 * US_PER_DAY));
        Ok (mk_datetime (733579 * US_PER_DAY + 43200 * US_PER_SECOND));
        Ok (mk_datetime (733580 * US_PER_DAY));
        Raise StopIteration].
Proof. vm_compute. reflexivity. Qed.

(** On dates a step without days yields the same date forever (the caveat
    of the documentation). *)
Example daterange_dates_hours :
  outcomes 3 (daterange (june 21) None (Some (Str "12 hours")))
  = Ok [Ok (june 21); Ok (june 21); Ok (june 21)].
Proof. vm_compute. reflexivity. Qed.

End examples.

(** * The claims at concrete inputs *)

Section instances.
Import str str_facts DateRange.

Lemma init_g4 : __init__ (june 21) (Some (june 25)) (Str "2 days") = Ok g4.
Proof.
  unfold __init__.
  replace (re.match_ [re.capture (re.plus re.d)] "2 days")
    with (@None (list string)) by (vm_compute; reflexivity).
  replace (delta.__new__ "2 days") with (Ok (mk_timedelta 2 0 0))
    by (vm_compute; reflexivity).
  reflexivity.
Qed.

Lemma C1_witness :
  (calls (3 + 2) g4).1
  = [Ok (june 21); Ok (june 23); Ok (june 25);
     Raise StopIteration; Raise StopIteration] /\
  Forall (fun v => __le__ v (june 25) = true) [june 21; june 23; june 25].
Proof.
  pose proof (C1_bounded_range_values (june 21) (june 25) (Str "2 days") g4
                2 2 2) as Hc.
  destruct Hc as (Hcalls & _ & Hle & _).
  - exact init_g4.
  - reflexivity.
  - lia.
  - lia.
  - reflexivity.
  - split; vm_compute; discriminate.
  - split; vm_compute; discriminate.
  - split; [exact Hcalls | exact Hle].
Defined.

Lemma C2_witness :
  (next late).1 = Raise StopIteration /\
  (calls 3 (next late).2).1
  = [Raise StopIteration; Raise StopIteration; Raise StopIteration].
Proof.
  split; [reflexivity|].
  exact (C2_exhaustion_is_permanent late 3 eq_refl).
Defined.

Lemma C8_witness :
  (calls 6 (mk_self (june 21) (fun _ => true) (mk_timedelta 1 0 0))).1 !! 5%nat
  = Some (Ok (june 26)) /\
  Raise StopIteration
  ∉ (calls 6 (mk_self (june 21) (fun _ => true) (mk_timedelta 1 0 0))).1.
Proof.
  destruct (C8_unbounded_daily_values (june 21) default_step
              (mk_self (june 21) (fun _ => true) (mk_timedelta 1 0 0)) 1)
    as [Hvalue Hstop]; [reflexivity.. |].
  split; [|exact (Hstop 6%nat)].
  refine (Hvalue 5%nat _ _); split; vm_compute; discriminate.
Defined.

Lemma C9_witness :
  (next late).1 = Raise StopIteration /\ (next late).2 = late.
Proof.
  split; [reflexivity|].
  exact (proj1 (C9_failed_call_keeps_state late StopIteration eq_refl)).
Defined.

Lemma C10_witness :
  toordinal (june 21) < toordinal (june 25) /\
  (calls 2 late).1 = [Raise StopIteration; Raise StopIteration].
Proof.
  split; [reflexivity|].
  refine (proj2 (C10_start_after_bound (june 25) (june 21) (Int 1) late 2 _ _));
    reflexivity.
Defined.

Lemma C5_witness :
  exists r : self,
    step r = mk_timedelta 2 0 0 /\
    __init__ (june 21) (Some (june 25)) (Int 2) = Ok r /\
    __init__ (june 21) (Some (june 25)) (Str "2") = Ok r.
Proof.
  destruct (C5_integer_steps_are_days (june 21) (Some (june 25)) 2 "2"
              (mk_timedelta 2 0 0)) as (r & Hstep & Hint & Hstr & _).
  - discriminate.
  - reflexivity.
  - reflexivity.
  - reflexivity.
  - exists r. auto.
Defined.

Lemma not_digits_2_dayz :
  ~ (exists q, q <> "" /\ all isdecimal q = true /\
               ("2 dayz" = q \/ "2 dayz" = q +:+ String "010" "")).
Proof.
  intros (q & _ & Hq & [<- | Hs]); [discriminate|].
  destruct q as [|c [|c' q]]; try discriminate.
  injection Hs as <- <- _. discriminate.
Qed.

Example parse_failure_is_swallowed_2_dayz :
  __init__ (june 21) None (Str "2 dayz")
  = Raise (TypeError (Invalid_step_value (Str "2 dayz"))).
Proof.
  refine (parse_failure_is_swallowed (june 21) None "2 dayz"
            (Invalid_unit "dayz") not_digits_2_dayz _).
  vm_compute. reflexivity.
Qed.

Lemma accepted_1_day : accepted "1 day".
Proof.
  exists "1", "day". split.
  - exists " ". split; [repeat split; discriminate | intros [=]].
  - split; [apply Nat.leb_le; reflexivity|].
    exists "days". vm_compute. reflexivity.
Qed.

Lemma no_shape_two_days : ~ has_shape isword "two days".
Proof.
  intros (n & g & u & Heq & Hne & Hn & _).
  destruct n as [|c n]; [congruence|].
  injection Heq as <- _. discriminate.
Qed.

Lemma C3_witness :
  delta.__new__ "1 day, two days, 3 hours"
  = Raise (ValueError (Invalid_delta_specifier "two days")).
Proof.
  refine (proj1 (C3_first_rejected_specifier "1 day, two days, 3 hours"
                   ["1 day"] ["3 hours"] "two days" _ _) no_shape_two_days).
  - vm_compute. reflexivity.
  - constructor; [exact accepted_1_day | constructor].
Defined.

Lemma C6_witness :
  delta.__new__ "1 day, 2 days" = delta.__new__ "3 days".
Proof.
  refine (proj2 (C6_same_unit_accumulates
                   [mk_specifier "" "1" " " "day" "";
                    mk_specifier " " "2" " " "days" ""]
                   [("days", 1); ("days", 2)] _ _) "days" "3" _ _ _ _);
    try discriminate; try reflexivity.
  - repeat constructor; try discriminate; vm_compute; reflexivity.
  - repeat constructor.
Defined.

Lemma C7_witness :
  delta.__new__ "2 D" = delta.__new__ "2 days" /\
  delta.__new__ "2 day" = delta.__new__ "2 days".
Proof.
  split.
  - refine (proj1 (C7_alias_and_case "days" ["d"; "day"; "days"] "D" "2"
                     _ _ _ _)); try discriminate; try reflexivity.
    + apply list_elem_of_here.
    + apply list_elem_of_here.
  - refine (proj1 (C7_alias_and_case "days" ["d"; "day"; "days"] "day" "2"
                     _ _ _ _)); try discriminate; try reflexivity.
    + apply list_elem_of_here.
    + apply list_elem_of_further, list_elem_of_here.
Defined.

(** ** Where the claims as stated fail *)

(** On dates a step of twelve hours never moves the range (the caveat of
    the documentation): a range that starts at its bound returns the bound
    again on the second call. *)
Lemma C1_counterexample : ~ C1_as_stated.
Proof.
  intros Hclaim.
  pose proof (Hclaim (june 21) (june 21) (mk_timedelta 0 43200 0)
                (mk_self (june 21) (fun d => __le__ d (june 21))
                         (mk_timedelta 0 43200 0))
                eq_refl eq_refl eq_refl) as Hc.
  cbv zeta in Hc.
  destruct Hc as (values & Hlen & Hcalls & _).
  - discriminate.
  - exists 0. reflexivity.
  - destruct values as [|v [|v' values]]; discriminate.
Qed.

(** With a negative step a range that starts at its bound goes on below
    the bound. *)
Example bounded_range_negative_step :
  outcomes 3 (daterange (june 21) (Some (june 21)) (Some (Int (-1))))
  = Ok [Ok (june 21); Ok (june 20); Ok (june 19)].
Proof. vm_compute. reflexivity. Qed.

(** A range up to the last date there is raises OverflowError where it
    should return its bound. *)
Example bounded_range_at_date_max :
  outcomes 2 (daterange (fromordinal (MAXORDINAL - 1))
                        (Some (fromordinal MAXORDINAL)) None)
  = Ok [Ok (fromordinal (MAXORDINAL - 1)); Raise OverflowError].
Proof. vm_compute. reflexivity. Qed.

Lemma letters_after_number_complete sp :
  has_shape isletter sp -> letters_after_number sp = true.
Proof.
  intros (n & g & u & -> & Hne & Hn & Hg & Hue & Hu).
  unfold letters_after_number.
  assert (Hu0 : stops isspace u /\ stops isdecimal u).
  { destruct u as [|c u]; [congruence|]. simpl in *.
    apply andb_true_iff in Hu as [Hc _].
    split; [now apply text_facts.letter_not_space | now apply letter_not_decimal]. }
  assert (Hgu : stops isdecimal (g +:+ u)).
  { destruct g as [|x g]; [apply Hu0|]. simpl in *.
    apply andb_true_iff in Hg as [Hx _].
    destruct (isdecimal x) eqn:Hd; [|reflexivity].
    rewrite (decimal_not_space x Hd) in Hx. discriminate. }
  rewrite (run_app _ _ _ Hn), (run_stops _ _ Hgu), Nat.add_0_r, drop_app.
  rewrite (run_app _ _ _ Hg), (run_stops _ _ (proj1 Hu0)), Nat.add_0_r, drop_app.
  rewrite Hu. apply String.eqb_neq in Hue. rewrite Hue.
  pose proof (re_facts.length_pos n Hne) as Hlen.
  apply Nat.leb_le in Hlen. now rewrite Hlen.
Qed.

(** The unit token of "2 d4ys" is not made of letters only, yet the
    parse fails with "Invalid unit". *)
Lemma C3_counterexample : ~ C3_as_stated.
Proof.
  intros Hclaim.
  destruct (Hclaim "2 d4ys" "2 d4ys") as [Hshape _].
  - vm_compute. apply list_elem_of_here.
  - destruct Hshape as (m & Hm).
    + intros Hs%letters_after_number_complete. discriminate.
    + vm_compute in Hm. discriminate.
Qed.

(** A malformed specifier after one with an unknown unit does not decide
    the error. *)
Example delta_first_error_wins :
  delta.__new__ "2 fortnights, two days"
  = Raise (ValueError (Invalid_unit "fortnights")).
Proof. vm_compute. reflexivity. Qed.

(** C4 (the code at the failing input): the step made of the digit 5 and
    a newline is not made of digits only, and [delta] raises a ValueError
    on it, yet [__init__] does not raise the TypeError: it builds a range
    with a step of 5 days, because [$] in [^(\d+)$] also matches before a
    newline that ends the string. *)
Theorem C4_newline_step :
  let s := String "5" (String "010" "") in
  all isdecimal s = false /\
  delta.__new__ s = Raise (ValueError (Invalid_delta_specifier "5")) /\
  __init__ (june 21) None (Str s)
  = Ok (mk_self (june 21) (fun _ => true) (mk_timedelta 5 0 0)).
Proof. cbv zeta. repeat split; vm_compute; reflexivity. Qed.

(** So the claim does not hold as it is stated. *)
Lemma C4_as_stated_fails : ~ C4_as_stated.
Proof.
  intros Hclaim.
  destruct (Hclaim (june 21) None (String "5" (String "010" ""))) as (m & Hm).
  - intros [_ Hd]. discriminate.
  - eexists. vm_compute. reflexivity.
  - discriminate.
Qed.

(** From the last date there is, the first call raises OverflowError: the
    start itself is not returned. *)
Lemma C8_counterexample : ~ C8_as_stated.
Proof.
  intros Hclaim.
  destruct (Hclaim (fromordinal MAXORDINAL) 0%nat
              (mk_self (fromordinal MAXORDINAL) (fun _ => true)
                       (mk_timedelta 1 0 0)) eq_refl eq_refl) as [Hv _].
  discriminate.
Qed.

End instances.

(** * Further properties of DateRange *)

Section more_range.
Import DateRange range_facts.

Section any_temporal.
Context {T : Type} `{Temporal T}.

Lemma next_keeps (r : self) :
  step (next r).2 = step r /\ condition (next r).2 = condition r.
Proof.
  unfold next. destruct (condition r (date r)); [|auto].
  destruct (__add__ (date r) (step r)); auto.
Qed.

Lemma next_returns (r : self) v :
  (next r).1 = Ok v ->
  v = date r /\ condition r v = true /\
  __add__ (date r) (step r) = Ok (date (next r).2).
Proof.
  unfold next. destruct (condition r (date r)) eqn:Hc; [|discriminate].
  destruct (__add__ (date r) (step r)) eqn:Ha; simpl; [|discriminate].
  intros [= <-]. auto.
Qed.

Lemma calls_S k (r : self) :
  calls (S k) r = ((next r).1 :: (calls k (next r).2).1, (calls k (next r).2).2).
Proof.
  simpl. destruct (next r) as [x r']. simpl. now destruct (calls k r').
Qed.

Lemma calls_raise (r : self) e k :
  (next r).1 = Raise e -> calls k r = (replicate k (Raise e), r).
Proof.
  intros Hr. induction k as [|k IH]; [reflexivity|].
  rewrite calls_S, (next_raise r e Hr), IH, Hr. reflexivity.
Qed.

(** X1: however many calls are made, and whatever they return or raise,
    the step and the condition of the range stay as [__init__] set them:
    [next] assigns to [self.date] only. *)
Theorem calls_keep_step_and_condition (r : self) (k : nat) :
  step (calls k r).2 = step r /\ condition (calls k r).2 = condition r.
Proof.
  revert r. induction k as [|k IH]; intros r; [auto|].
  rewrite calls_S. cbn [snd]. destruct (IH (next r).2) as [-> ->].
  apply next_keeps.
Qed.

Lemma returned_values_pass_condition (r : self) (k : nat) (v : T) :
  Ok v ∈ (calls k r).1 -> condition r v = true.
Proof.
  revert r. induction k as [|k IH]; intros r; [intros []%elem_of_nil|].
  rewrite calls_S. cbn [fst]. intros [Hv | Hv]%elem_of_cons.
  - symmetry in Hv. now apply next_returns in Hv as (_ & Hc & _).
  - apply IH in Hv. now rewrite (proj2 (next_keeps r)) in Hv.
Qed.

(** X2: a bounded range never returns a value after its bound, whatever
    the step (negative, zero or not aligned with the bound) and however
    many calls are made. *)
Theorem returned_values_within_bound
    (start bound : T) (st : object) (r : self) (k : nat) (v : T) :
  __init__ start (Some bound) st = Ok r ->
  Ok v ∈ (calls k r).1 -> __le__ v bound = true.
Proof.
  intros Hinit Hv. apply init_inv in Hinit as [_ Hcond].
  apply returned_values_pass_condition in Hv. now rewrite Hcond in Hv.
Qed.

(** X3: the outcomes of any number of calls are values followed by
    repetitions of one exception: once a call has raised, no later call
    returns a value, and every later call raises the same exception. *)
Theorem values_then_one_error (r : self) (k : nat) :
  exists (vs : list T) (e : exception) (j : nat),
    (calls k r).1 = (Ok <$> vs) ++ replicate j (Raise e) /\
    (length vs + j = k)%nat.
Proof.
  revert r. induction k as [|k IH]; intros r.
  - exists [], StopIteration, 0%nat. auto.
  - destruct (next r).1 as [v|e] eqn:Hn.
    + destruct (IH (next r).2) as (vs & e & j & Hc & Hl).
      exists (v :: vs), e, j. rewrite calls_S, Hn, Hc. simpl.
      split; [reflexivity | lia].
    + exists [], e, (S k). rewrite (calls_raise r e (S k) Hn). auto.
Qed.

(** X4: the value that call number [i] (from 0) returns is the start with
    the step added [i] times by the addition of its type: the value from
    before the increment of that call. *)
Theorem returned_value_is_start_plus_steps (r : self) (k i : nat) (v : T) :
  (calls k r).1 !! i = Some (Ok v) -> add_times (date r) (step r) i = Ok v.
Proof.
  revert r k. induction i as [|i IH]; intros r k.
  - destruct k as [|k]; [discriminate|]. rewrite calls_S. cbn.
    intros [= Hn]. now apply next_returns in Hn as (-> & _).
  - intros Hi. destruct (next r).1 as [v0|e] eqn:Hn.
    + destruct k as [|k]; [discriminate|]. rewrite calls_S in Hi.
      cbn [fst] in Hi. change ((?x :: ?l) !! S i) with (l !! i) in Hi.
      apply IH in Hi. rewrite (proj1 (next_keeps r)) in Hi.
      apply next_returns in Hn as (_ & _ & Ha).
      cbn [add_times]. now rewrite Ha.
    + rewrite (calls_raise r e k Hn) in Hi. cbn [fst] in Hi.
      apply lookup_replicate in Hi as [[=] _].
Qed.

End any_temporal.

Section on_a_line.
Context {T : Type} `{TemporalLine T}.

(** X5: when adding the step does not move the current value (on dates: a
    step without days, the caveat of the docstring) and the condition
    holds for it, every call returns that same value and the range stays
    as it is. *)
Theorem step_without_advance_repeats (r : self) (k : nat) :
  advance (step r) = 0 -> representable (tick (date r)) ->
  condition r (date r) = true ->
  calls k r = (replicate k (Ok (date r)), r).
Proof.
  intros Hs Hrep Hc.
  assert (Hn : next r = (Ok (date r), r)).
  { rewrite next_ok; auto.
    - rewrite Hs, Z.add_0_r, of_tick_tick. now destruct r.
    - now rewrite Hs, Z.add_0_r. }
  induction k as [|k IH]; [reflexivity|].
  rewrite calls_S, Hn. cbn [fst snd]. now rewrite IH.
Qed.

(** X6: a bounded range that starts at or before its bound, with a step
    that advances by [s > 0] ticks, aligned with the bound or not, returns
    exactly [(bound - start) / s + 1] values, [start], [start + s], ...,
    and raises StopIteration from then on, provided the value after the
    last is still representable. *)
Theorem bounded_range_length
    (start bound : T) (st : object) (r : self) (s : Z) (m : nat) :
  __init__ start (Some bound) st = Ok r ->
  advance (step r) = s -> 0 < s ->
  tick start <= tick bound -> representable (tick start) ->
  let n := Z.to_nat ((tick bound - tick start) / s + 1) in
  representable (tick start + Z.of_nat n * s) ->
  (calls (n + m) r).1
  = (Ok <$> progression start s n) ++ replicate m (Raise StopIteration).
Proof.
  intros Hinit Hs Hpos Hle [Hlo Hhi] n [_ Hhi'].
  apply init_inv in Hinit as [Hdate Hcond].
  destruct r as [d cond td]. cbn [date condition step] in *. subst d cond.
  set (q := (tick bound - tick start) / s) in *.
  assert (Hq : 0 <= q) by (apply Z.div_pos; lia).
  assert (Hn : Z.of_nat n = q + 1) by (subst n; lia).
  assert (Hdown : tick start + q * s <= tick bound).
  { pose proof (Z.mul_div_le (tick bound - tick start) s Hpos) as Hd.
    fold q in Hd. lia. }
  assert (Hup : tick bound < tick start + (q + 1) * s).
  { pose proof (Z.mul_succ_div_gt (tick bound - tick start) s Hpos) as Hd.
    fold q in Hd. lia. }
  rewrite calls_app.
  pose proof (calls_values n (tick start) (fun d => __le__ d bound) td) as Hcalls.
  rewrite of_tick_tick, Hs in Hcalls. rewrite Hcalls.
  - cbn [fst snd]. rewrite progression_values. f_equal.
    rewrite calls_exhausted; [reflexivity|].
    unfold next. cbn [condition date]. rewrite le_tick, tick_of_tick.
    now replace (tick start + Z.of_nat n * s <=? tick bound) with false
      by (symmetry; apply Z.leb_gt; lia).
  - intros i Hi. rewrite le_tick, tick_of_tick. apply Z.leb_le. nia.
  - intros i Hi. unfold representable. nia.
Qed.

End on_a_line.
End more_range.

Section more_range2.
Import DateRange range_facts.

Section on_a_line.
Context {T : Type} `{TemporalLine T}.

Lemma backward_no_stop (bound : T) (k : nat) : forall r : self,
  condition r = (fun d => __le__ d bound) ->
  tick (date r) <= tick bound -> advance (step r) <= 0 ->
  Raise StopIteration ∉ (calls k r).1.
Proof.
  induction k as [|k IH]; intros r Hcond Hle Hs; [apply not_elem_of_nil|].
  assert (Hc : condition r (date r) = true).
  { rewrite Hcond, le_tick. now apply Z.leb_le. }
  rewrite calls_S. cbn [fst]. apply not_elem_of_cons. split.
  - intros Heq. now apply (next_no_stop r Hc).
  - destruct (next_keeps r) as [Hstep Hcond']. apply IH.
    + now rewrite Hcond'.
    + unfold next. rewrite Hc, add_tick.
      destruct (_ && _); cbn [snd date]; [|assumption].
      rewrite tick_of_tick. lia.
    + now rewrite Hstep.
Qed.

(** X7: a bounded range that starts at or before its bound with a step
    that does not move forward (zero, negative, or on dates without days)
    never raises StopIteration, however many calls are made: it ends, if
    at all, with the OverflowError of the addition. *)
Theorem backward_step_never_stops
    (start bound : T) (st : object) (r : self) (k : nat) :
  __init__ start (Some bound) st = Ok r ->
  advance (step r) <= 0 -> tick start <= tick bound ->
  Raise StopIteration ∉ (calls k r).1.
Proof.
  intros Hinit Hs Hle. apply init_inv in Hinit as [Hdate Hcond].
  apply (backward_no_stop bound); [assumption | now rewrite Hdate | assumption].
Qed.

(** X8: when the value after the current one cannot be represented (the
    addition overflows), the current value is never returned, although the
    condition holds for it: every call raises OverflowError and leaves the
    range as it is. *)
Theorem overflow_hides_current_value (r : self) (k : nat) :
  condition r (date r) = true ->
  ~ representable (tick (date r) + advance (step r)) ->
  calls k r = (replicate k (Raise OverflowError), r).
Proof.
  intros Hc Hrep. apply calls_raise. unfold next. rewrite Hc, add_tick.
  destruct (_ && _) eqn:Hin; [|reflexivity].
  exfalso. apply Hrep. apply andb_true_iff in Hin as [Hlo Hhi].
  split; now apply Z.leb_le.
Qed.

End on_a_line.

(** X9: a range of dates uses the days of its step only: two steps with
    the same days, whatever their seconds and microseconds, give the same
    outcomes call after call. *)
Theorem date_range_ignores_time_of_step
    (start : datetime.date) (cond : datetime.date -> bool)
    (t1 t2 : timedelta) (k : nat) :
  days t1 = days t2 ->
  (calls k (mk_self start cond t1)).1 = (calls k (mk_self start cond t2)).1.
Proof.
  intros Hd. revert start. induction k as [|k IH]; intros start; [reflexivity|].
  rewrite !calls_S. unfold next. cbn [date condition step].
  destruct (cond start); [|cbn [fst snd]; f_equal; apply IH].
  cbn [__add__ date_Temporal]. unfold date_add. rewrite Hd.
  destruct (in_range _); cbn [fst snd]; f_equal; apply IH.
Qed.

End more_range2.

(** * Further properties of delta *)

Section more_delta.
Import str str_facts re re_facts delta delta_facts alias_facts loop_facts
  text_facts.

Lemma int_decimal_nonneg q n :
  q <> "" -> all isdecimal q = true -> int q = Ok n -> 0 <= n.
Proof.
  intros Hne Hq Hn. now apply (int_decimal_inv q n Hne Hq Hn).
Qed.

(** A stripped specifier that the pattern matches is read as the groups
    of the match. *)
Lemma match_reads x number token :
  match_ specifier_pattern (strip x) = Some [number; token] ->
  reads_as (strip x) number token.
Proof.
  intros Hm. pose proof Hm as Hs.
  apply specifier_sound in Hs as (n & g & u & tail & _ & Hshape & Hsp & Hd).
  apply at_dollar_inv in Hd as [-> | (c & -> & Hc)].
  2:{ apply strip_end in Hsp. rewrite (newline_space c Hc) in Hsp. discriminate. }
  rewrite app_nil_r in Hsp.
  destruct (shape_reads (strip x)) as (n' & t' & Hr).
  { exists n, g, u. now rewrite Hsp. }
  pose proof (specifier_complete _ _ _ Hr) as Hm'. rewrite Hm in Hm'.
  now injection Hm' as -> ->.
Qed.

Lemma body_ok_inv kwargs x kwargs' :
  body kwargs (strip x) = Ok kwargs' ->
  exists c n,
    reads_unit c (strip x) n /\ 0 <= n /\
    kwargs' = <[c := default 0 (kwargs !! c) + n]> kwargs.
Proof.
  unfold body.
  destruct (match_ specifier_pattern (strip x)) as [[|number [|token [|? ?]]]|] eqn:Hm;
    try (match goal with |- Raise _ = _ -> _ => discriminate end).
  pose proof (match_reads x number token Hm) as Hr.
  destruct (int number) as [n|] eqn:Hn; cbn [bind]; [|discriminate].
  destruct (UNIT_ALIASES !! lower token) as [c|] eqn:Hc; [|discriminate].
  destruct (String.eqb c ""); [discriminate|]. intros [= <-].
  exists c, n. split; [exists number, token; auto|]. split; [|reflexivity].
  destruct Hr as (gap & (_ & Hne & Hq & _) & _).
  exact (int_decimal_nonneg number n Hne Hq Hn).
Qed.

Lemma body_raise_inv kwargs x e :
  body kwargs (strip x) = Raise e ->
  e = ValueError (Invalid_delta_specifier (strip x)) \/
  (exists u, e = ValueError (Invalid_unit u)) \/
  (exists digits, e = ValueError (Exceeds_the_limit digits)).
Proof.
  unfold body.
  destruct (match_ specifier_pattern (strip x)) as [[|number [|token [|? ?]]]|] eqn:Hm;
    try (match goal with |- Raise _ = _ -> _ => intros [= <-]; left; reflexivity end).
  pose proof (match_reads x number token Hm) as Hr.
  destruct (Nat.le_gt_cases (String.length number) MAX_STR_DIGITS) as [Hlen|Hlen].
  - destruct (reads_as_int _ _ _ Hr Hlen) as (n & ->). cbn [bind].
    destruct (UNIT_ALIASES !! lower token) as [c|] eqn:Hc.
    + destruct (String.eqb c ""); [|discriminate]. intros [= <-].
      right. left. eauto.
    + intros [= <-]. right. left. eauto.
  - destruct Hr as (gap & (_ & _ & Hn & _) & _).
    rewrite (int_too_long number Hn Hlen). cbn [bind]. intros [= <-].
    right. right. eauto.
Qed.

Lemma accepted_body kwargs sp :
  accepted sp -> exists kwargs', body kwargs sp = Ok kwargs'.
Proof.
  intros (number & token & Hr & Hlen & c & Hc).
  destruct (reads_as_int _ _ _ Hr Hlen) as (n & Hn).
  rewrite (body_accepts kwargs c sp n); [eauto|]. exists number, token. auto.
Qed.

Lemma reads_unit_accepted c sp n : reads_unit c sp n -> accepted sp.
Proof.
  intros (number & token & Hr & Hn & Hc). exists number, token.
  split; [assumption|]. split; [|eauto].
  destruct Hr as (gap & (_ & Hne & Hq & _) & _).
  now apply (int_decimal_inv number n Hne Hq Hn).
Qed.

(** The loop on stripped specifiers: all are accepted and the loop ends,
    or one is not and the loop raises a ValueError. *)
Lemma loop_cases xs : forall kwargs,
  (exists cns kwargs',
     Forall2 (fun sp cn => reads_unit cn.1 sp cn.2 /\ 0 <= cn.2) (map strip xs) cns /\
     loop (map strip xs) kwargs = Ok kwargs') \/
  (~ Forall accepted (map strip xs) /\
   exists m, loop (map strip xs) kwargs = Raise (ValueError m)).
Proof.
  induction xs as [|x xs IH]; intros kwargs.
  - left. exists [], kwargs. split; [constructor | reflexivity].
  - cbn [map loop]. destruct (body kwargs (strip x)) as [kwargs1|e] eqn:Hb.
    + apply body_ok_inv in Hb as (c & n & Hr & Hn & ->). cbn [bind].
      destruct (IH (<[c := default 0 (kwargs !! c) + n]> kwargs))
        as [(cns & kwargs' & Hall & Hloop) | (Hno & m & Hloop)].
      * left. exists ((c, n) :: cns), kwargs'. split; [|assumption].
        constructor; auto.
      * right. split; [|eauto]. intros Hall. apply Hno.
        now inversion Hall.
    + right. split.
      * intros Hall. inversion Hall as [|? ? Hacc _]; subst.
        destruct (accepted_body kwargs _ Hacc) as (k' & Hk'). congruence.
      * apply body_raise_inv in Hb as [-> | [(u & ->) | (digits & ->)]];
          cbn [bind]; eauto.
Qed.

Lemma Forall2_reads_accepted l cns :
  Forall2 (fun sp (cn : string * Z) => reads_unit cn.1 sp cn.2 /\ 0 <= cn.2) l cns ->
  Forall accepted l.
Proof.
  induction 1 as [|sp cn l cns [Hr _] _ IH]; constructor; auto.
  now apply (reads_unit_accepted cn.1 sp cn.2).
Qed.

(** The timedelta of the keyword arguments that the loop leaves. *)
Lemma kwargs_totals l cns kwargs :
  Forall2 (fun sp (cn : string * Z) => reads_unit cn.1 sp cn.2 /\ 0 <= cn.2) l cns ->
  loop l ∅ = Ok kwargs ->
  timedelta_kwargs kwargs
  = timedelta_new (total "days" cns) (total "seconds" cns)
      (total "microseconds" cns) 0 (total "minutes" cns) (total "hours" cns) 0.
Proof.
  intros Hall Hloop.
  assert (Hall' : Forall2 (fun sp (cn : string * Z) => reads_unit cn.1 sp cn.2) l cns).
  { eapply Forall2_impl; [exact Hall|]. now intros ? ? [? _]. }
  destruct (loop_totals l cns Hall' ∅) as (kwargs0 & Hloop0 & Hsum & Hdom).
  rewrite Hloop in Hloop0. injection Hloop0 as <-.
  assert (Hunits : Forall (fun cn : string * Z => cn.1 ∈ cnames) cns).
  { clear -Hall'. induction Hall' as [|sp cn l cns (? & ? & _ & _ & Hc) _ IH];
      constructor; auto. now apply alias_lookup in Hc. }
  assert (Hother : forall k, k ∉ cnames -> total k cns = 0).
  { intros k Hk. apply total_none. eapply Forall_impl; [exact Hunits|].
    intros cn Hcn Heq. simpl in Heq. subst k. contradiction. }
  unfold timedelta_kwargs. rewrite bool_decide_eq_true_2.
  - rewrite !Hsum, !lookup_empty. cbn [default].
    rewrite (Hother "milliseconds"), (Hother "weeks"); [reflexivity | |];
      unfold cnames; rewrite !elem_of_cons, elem_of_nil;
      intros [?|[?|[?|[?|[?|[]]]]]]; discriminate.
  - intros k Hk%elem_of_dom. apply elem_of_list_to_set.
    destruct (Hdom k Hk) as [[x Hx] | Hk']; [|now apply cname_keyword].
    rewrite lookup_empty in Hx. discriminate.
Qed.

Lemma timedelta_new_cases d s u ml m h w :
  (exists td, timedelta_new d s u ml m h w = Ok td) \/
  timedelta_new d s u ml m h w = Raise OverflowError.
Proof. unfold timedelta_new. destruct (_ >? _); eauto. Qed.

(** X10: [delta] raises a ValueError exactly when one of its stripped
    specifiers is not accepted (a number of no more digits than [int]
    converts, optional whitespace, a known unit); when all are accepted it
    returns a timedelta or raises OverflowError. It raises nothing
    else. *)
Theorem delta_accepts_or_value_error (spec : string) :
  let specifiers := map strip (split "," spec) in
  (Forall accepted specifiers /\
   ((exists td, __new__ spec = Ok td) \/ __new__ spec = Raise OverflowError)) \/
  (~ Forall accepted specifiers /\
   exists m, __new__ spec = Raise (ValueError m)).
Proof.
  cbv zeta. unfold __new__.
  destruct (loop_cases (split "," spec) ∅)
    as [(cns & kwargs & Hall & Hloop) | (Hno & m & Hloop)].
  - left. split; [now apply (Forall2_reads_accepted _ cns)|].
    rewrite Hloop. cbn [bind]. rewrite (kwargs_totals _ cns kwargs Hall Hloop).
    apply timedelta_new_cases.
  - right. split; [assumption|]. exists m. now rewrite Hloop.
Qed.

End more_delta.

Section more_delta2.
Import str str_facts re re_facts delta delta_facts alias_facts loop_facts
  text_facts.

(** What [timedelta] stores is normalised and worth its arguments. *)
Lemma timedelta_new_ok d s u ml m h w td :
  timedelta_new d s u ml m h w = Ok td ->
  total_microseconds td
  = ((((w * 7 + d) * 24 + h) * 60 + m) * 60 + s) * US_PER_SECOND + ml * 1000 + u /\
  - MAX_DELTA_DAYS <= days td <= MAX_DELTA_DAYS /\
  0 <= seconds td < 86400 /\ 0 <= microseconds td < US_PER_SECOND.
Proof.
  unfold timedelta_new.
  set (us := ((((w * 7 + d) * 24 + h) * 60 + m) * 60 + s) * US_PER_SECOND
             + ml * 1000 + u).
  destruct (Z.abs (us / US_PER_DAY) >? MAX_DELTA_DAYS) eqn:Hover; [discriminate|].
  intros [= <-]. unfold total_microseconds. cbn [days seconds microseconds].
  unfold US_PER_DAY, US_PER_SECOND, MAX_DELTA_DAYS in *.
  rewrite Z.gtb_ltb in Hover. apply Z.ltb_ge in Hover.
  pose proof (Z.div_mod us 1000000 ltac:(lia)) as H1.
  pose proof (Z.mod_pos_bound us 1000000 ltac:(lia)) as H2.
  pose proof (Z.div_mod (us / 1000000) 86400 ltac:(lia)) as H3.
  pose proof (Z.mod_pos_bound (us / 1000000) 86400 ltac:(lia)) as H4.
  assert (H5 : us / (86400 * 1000000) = us / 1000000 / 86400).
  { rewrite (Z.mul_comm 86400 1000000). symmetry. apply Z.div_div; lia. }
  rewrite H5 in *. repeat split; lia.
Qed.

Lemma timedelta_new_overflow d s u ml m h w :
  timedelta_new d s u ml m h w = Raise OverflowError <->
  MAX_DELTA_DAYS <
  Z.abs ((((((w * 7 + d) * 24 + h) * 60 + m) * 60 + s) * US_PER_SECOND
          + ml * 1000 + u) / US_PER_DAY).
Proof.
  unfold timedelta_new.
  destruct (Z.gtb_spec (Z.abs ((((((w * 7 + d) * 24 + h) * 60 + m) * 60 + s)
     * US_PER_SECOND + ml * 1000 + u) / US_PER_DAY)) MAX_DELTA_DAYS) as [Hgt|Hle].
  - split; [lia | reflexivity].
  - split; [discriminate | lia].
Qed.

Lemma total_nonneg c cns :
  Forall (fun cn : string * Z => 0 <= cn.2) cns -> 0 <= total c cns.
Proof.
  induction 1 as [|[c' n] cns Hn _ IH]; [unfold total; simpl; lia|].
  rewrite total_cons. simpl in Hn. destruct (decide (c' = c)); lia.
Qed.

(** X11: a timedelta that [delta] returns is never negative: its days are
    between 0 and 999999999, with the seconds and the microseconds
    normalised. *)
Theorem delta_result_is_not_negative (spec : string) (td : timedelta) :
  __new__ spec = Ok td ->
  0 <= days td <= MAX_DELTA_DAYS /\
  0 <= seconds td < 86400 /\ 0 <= microseconds td < US_PER_SECOND.
Proof.
  unfold __new__.
  destruct (loop_cases (split "," spec) ∅)
    as [(cns & kwargs & Hall & Hloop) | (_ & m & Hloop)];
    rewrite Hloop; cbn [bind]; [|discriminate].
  rewrite (kwargs_totals _ cns kwargs Hall Hloop). intros Htd.
  apply timedelta_new_ok in Htd as (Htotal & Hdays & Hsec & Hus).
  assert (Hpos : Forall (fun cn : string * Z => 0 <= cn.2) cns).
  { clear -Hall. induction Hall as [|? ? ? ? [_ ?] _ IH]; constructor; auto. }
  pose proof (total_nonneg "days" cns Hpos).
  pose proof (total_nonneg "seconds" cns Hpos).
  pose proof (total_nonneg "microseconds" cns Hpos).
  pose proof (total_nonneg "minutes" cns Hpos).
  pose proof (total_nonneg "hours" cns Hpos).
  repeat split; try lia.
  unfold total_microseconds, US_PER_SECOND in *. nia.
Qed.

Lemma unit_microseconds_eq cns :
  ((((0 * 7 + total "days" cns) * 24 + total "hours" cns) * 60
    + total "minutes" cns) * 60 + total "seconds" cns) * US_PER_SECOND
  + 0 * 1000 + total "microseconds" cns
  = unit_microseconds cns.
Proof. unfold unit_microseconds, US_PER_DAY, US_PER_SECOND. lia. Qed.

(** X12: for well-formed specifiers, whose numbers [int] converts, what
    [delta] returns is worth the sum of the quantities, each times the
    length of its unit (a day, an hour, a minute, a second, a
    microsecond); and [delta] raises OverflowError exactly when that sum
    reaches 1000000000 days. *)
Theorem delta_value (sps : list specifier) (cns : list (string * Z)) :
  Forall2 (fun sp cn => specifier_of cn.1 sp cn.2) sps cns -> sps <> [] ->
  (unit_microseconds cns < (MAX_DELTA_DAYS + 1) * US_PER_DAY ->
   exists td, __new__ (join "," (text <$> sps)) = Ok td /\
              total_microseconds td = unit_microseconds cns) /\
  ((MAX_DELTA_DAYS + 1) * US_PER_DAY <= unit_microseconds cns ->
   __new__ (join "," (text <$> sps)) = Raise OverflowError).
Proof.
  intros Hall Hne. rewrite (new_totals sps cns Hall Hne).
  assert (Hpos : Forall (fun cn : string * Z => 0 <= cn.2) cns).
  { clear -Hall.
    induction Hall as [|sp cn sps cns (_ & _ & _ & Hq & Hd & Hi & _) _ IH];
      constructor; auto. exact (int_decimal_nonneg _ _ Hq Hd Hi). }
  assert (H0 : 0 <= unit_microseconds cns).
  { pose proof (total_nonneg "days" cns Hpos).
    pose proof (total_nonneg "seconds" cns Hpos).
    pose proof (total_nonneg "microseconds" cns Hpos).
    pose proof (total_nonneg "minutes" cns Hpos).
    pose proof (total_nonneg "hours" cns Hpos).
    unfold unit_microseconds, US_PER_DAY, US_PER_SECOND. lia. }
  assert (Hdiv : 0 <= unit_microseconds cns / US_PER_DAY).
  { apply Z.div_pos; [assumption | reflexivity]. }
  split; intros Hus.
  - destruct (timedelta_new_cases (total "days" cns) (total "seconds" cns)
                (total "microseconds" cns) 0 (total "minutes" cns)
                (total "hours" cns) 0) as [(td & Htd) | Hover].
    + exists td. split; [assumption|].
      apply timedelta_new_ok in Htd as (-> & _). apply unit_microseconds_eq.
    + exfalso. apply timedelta_new_overflow in Hover.
      rewrite unit_microseconds_eq in Hover.
      rewrite Z.abs_eq in Hover by assumption.
      assert (unit_microseconds cns / US_PER_DAY < MAX_DELTA_DAYS + 1).
      { apply Z.div_lt_upper_bound; [reflexivity | lia]. }
      lia.
  - apply timedelta_new_overflow. rewrite unit_microseconds_eq.
    rewrite Z.abs_eq by assumption.
    assert (MAX_DELTA_DAYS + 1 <= unit_microseconds cns / US_PER_DAY).
    { apply Z.div_le_lower_bound; [reflexivity | lia]. }
    lia.
Qed.

End more_delta2.

Section more_delta3.
Import str str_facts re re_facts delta delta_facts alias_facts loop_facts
  text_facts.

Lemma UNIT_ALIASES_invert : UNIT_ALIASES = invert_into ∅ UNIT_NAMES.
Proof. reflexivity. Qed.

Lemma aliases_lookup (acc : gmap string string) c als k :
  fold_left (fun acc a => <[a := c]> acc) als acc !! k
  = if bool_decide (k ∈ als) then Some c else acc !! k.
Proof.
  revert acc. induction als as [|a als IH]; intros acc; cbn [fold_left].
  - now rewrite bool_decide_eq_false_2 by apply not_elem_of_nil.
  - rewrite IH. destruct (decide (k ∈ als)) as [Hin|Hin].
    + rewrite !bool_decide_eq_true_2; auto. now right.
    + rewrite (bool_decide_eq_false_2 _ Hin).
      destruct (decide (a = k)) as [->|Hne].
      * rewrite lookup_insert_eq, bool_decide_eq_true_2; auto. now left.
      * rewrite lookup_insert_ne by assumption.
        rewrite bool_decide_eq_false_2; [reflexivity|].
        intros [?|?]%elem_of_cons; congruence.
Qed.

Lemma entry_lookup (acc : gmap string string) c als k :
  <[c := c]> (fold_left (fun acc a => <[a := c]> acc) als acc) !! k
  = if bool_decide (k ∈ als ++ [c]) then Some c else acc !! k.
Proof.
  destruct (decide (c = k)) as [->|Hne].
  - rewrite lookup_insert_eq, bool_decide_eq_true_2; [reflexivity|].
    apply elem_of_app. right. now left.
  - rewrite lookup_insert_ne by assumption. rewrite aliases_lookup.
    destruct (decide (k ∈ als)) as [Hin|Hin].
    + rewrite !bool_decide_eq_true_2; auto. apply elem_of_app. now left.
    + rewrite !bool_decide_eq_false_2; auto.
      intros [?|?%list_elem_of_singleton]%elem_of_app; congruence.
Qed.

Lemma invert_cons acc c als names :
  invert_into acc ((c, als) :: names)
  = invert_into (<[c := c]> (fold_left (fun acc a => <[a := c]> acc) als acc)) names.
Proof. reflexivity. Qed.

Lemma invert_outside names : forall acc k,
  k ∉ all_names names -> invert_into acc names !! k = acc !! k.
Proof.
  induction names as [|[c als] names IH]; intros acc k Hk; [reflexivity|].
  unfold all_names in Hk. rewrite bind_cons in Hk. cbn [fst snd] in Hk.
  rewrite invert_cons, IH.
  - rewrite entry_lookup, bool_decide_eq_false_2; [reflexivity|].
    intros Hin. apply Hk, elem_of_app. now left.
  - intros Hin. apply Hk, elem_of_app. now right.
Qed.

Lemma invert_lookup (names : list (string * list string))
    (c : string) (aliases : list string) (k : string) :
  NoDup (all_names names) ->
  (c, aliases) ∈ names -> k = c \/ k ∈ aliases ->
  invert_into ∅ names !! k = Some c.
Proof.
  generalize (∅ : gmap string string).
  induction names as [|[c0 als0] names IH]; intros acc Hnd Hin Hk.
  - now apply elem_of_nil in Hin.
  - unfold all_names in Hnd. rewrite bind_cons in Hnd. cbn [fst snd] in Hnd.
    apply NoDup_app in Hnd as (_ & Hdisj & Hnd).
    rewrite invert_cons. apply elem_of_cons in Hin as [[= <- <-] | Hin].
    + assert (Hk' : k ∈ aliases ++ [c]).
      { apply elem_of_app. destruct Hk as [->|Hk]; [right; now left | now left]. }
      rewrite invert_outside by now apply Hdisj.
      now rewrite entry_lookup, bool_decide_eq_true_2.
    + now apply IH.
Qed.

Lemma invert_only (names : list (string * list string)) (k v : string) :
  invert_into ∅ names !! k = Some v ->
  exists aliases, (v, aliases) ∈ names /\ (k = v \/ k ∈ aliases).
Proof.
  assert (Hgen : forall acc,
    invert_into acc names !! k = Some v ->
    acc !! k = Some v \/
    exists aliases, (v, aliases) ∈ names /\ (k = v \/ k ∈ aliases)).
  { induction names as [|[c als] names IH]; intros acc Hl; [now left|].
    rewrite invert_cons in Hl. apply IH in Hl as [Hl | (als' & Hin & Hk)].
    - rewrite entry_lookup in Hl.
      destruct (decide (k ∈ als ++ [c])) as [Hk|Hk].
      + rewrite bool_decide_eq_true_2 in Hl by assumption. injection Hl as <-.
        right. exists als. split; [now left|].
        apply elem_of_app in Hk as [Hk | Hk%list_elem_of_singleton]; auto.
      + rewrite bool_decide_eq_false_2 in Hl by assumption. now left.
    - right. exists als'. split; [now right | assumption]. }
  intros Hl. apply Hgen in Hl as [Hl | Hl]; [|assumption].
  rewrite lookup_empty in Hl. discriminate.
Qed.

(** X13: the loops of the class body turn a table of names inside-out:
    when no name is written twice, the dict they build maps a key to a
    canonical name exactly when the key is that canonical name or one of
    its aliases. [UNIT_ALIASES] is that dict for [UNIT_NAMES]. *)
Theorem invert_exact (names : list (string * list string)) (k c : string) :
  NoDup (all_names names) ->
  invert_into ∅ names !! k = Some c <->
  exists aliases, (c, aliases) ∈ names /\ (k = c \/ k ∈ aliases).
Proof.
  intros Hnd. split.
  - apply invert_only.
  - intros (aliases & Hin & Hk). now apply (invert_lookup names c aliases).
Qed.

End more_delta3.

Section more_delta4.
Import str str_facts re re_facts delta delta_facts alias_facts loop_facts
  text_facts.

Lemma total_perm c cns cns' : cns ≡ₚ cns' -> total c cns = total c cns'.
Proof.
  induction 1 as [|[c1 n1] ? ? _ IH|[c1 n1] [c2 n2] ?|? ? ? _ IH1 _ IH2].
  - reflexivity.
  - now rewrite !total_cons, IH.
  - rewrite !total_cons. lia.
  - congruence.
Qed.

Lemma Forall_Forall2_pairs (l : list (specifier * (string * Z))) :
  Forall (fun p => specifier_of p.2.1 p.1 p.2.2) l ->
  Forall2 (fun sp cn => specifier_of cn.1 sp cn.2) l.*1 l.*2.
Proof. induction 1; simpl; constructor; auto. Qed.

(** X14: the order of the specifiers does not matter: well-formed
    specifiers written in another order parse to the same result. *)
Theorem delta_order_is_irrelevant (l l' : list (specifier * (string * Z))) :
  Forall (fun p => specifier_of p.2.1 p.1 p.2.2) l -> l <> [] -> l ≡ₚ l' ->
  __new__ (join "," (text <$> l.*1)) = __new__ (join "," (text <$> l'.*1)).
Proof.
  intros Hall Hne Hperm.
  assert (Hall' : Forall (fun p => specifier_of p.2.1 p.1 p.2.2) l').
  { now rewrite <- Hperm. }
  assert (Hne' : l' <> []).
  { intros ->. apply Permutation_nil_r in Hperm. contradiction. }
  rewrite (new_totals l.*1 l.*2), (new_totals l'.*1 l'.*2);
    auto using Forall_Forall2_pairs.
  - assert (Hp : l.*2 ≡ₚ l'.*2) by now rewrite Hperm.
    now rewrite !(total_perm _ _ _ Hp).
  - destruct l'; [congruence | discriminate].
  - destruct l; [congruence | discriminate].
Qed.

Lemma strip_spaces g : all isspace g = true -> strip g = "".
Proof.
  intros Hg. unfold strip.
  pose proof (lstrip_spaces g "" Hg) as Hl. rewrite app_nil_r in Hl.
  now rewrite Hl.
Qed.

Lemma space_not_comma c : isspace c = true -> negb (Ascii.eqb c ",") = true.
Proof. each_char c. Qed.

(** X15: a spec string that is empty or blank, or whose first specifier is
    (as in ",1 day"), makes [delta] raise "Invalid delta specifier" on the
    empty string. *)
Theorem delta_blank_specifier (blank rest : string) :
  all isspace blank = true ->
  __new__ blank = Raise (ValueError (Invalid_delta_specifier "")) /\
  __new__ (blank +:+ "," +:+ rest)
  = Raise (ValueError (Invalid_delta_specifier "")).
Proof.
  intros Hb.
  assert (Hnc : nocomma blank = true).
  { apply (all_impl isspace); auto using space_not_comma. }
  unfold __new__. split.
  - rewrite (split_nocomma blank Hnc). cbn [map loop].
    now rewrite (strip_spaces blank Hb).
  - change (blank +:+ "," +:+ rest) with (blank +:+ String "," rest).
    rewrite (split_app blank rest Hnc). cbn [map loop].
    now rewrite (strip_spaces blank Hb).
Qed.

End more_delta4.

Section more_init.
Import str str_facts re re_facts delta_facts loop_facts DateRange range_facts.

Lemma timedelta_days n :
  timedelta_new n 0 0 0 0 0 0
  = if Z.abs n <=? MAX_DELTA_DAYS then Ok (mk_timedelta n 0 0)
    else Raise OverflowError.
Proof.
  unfold timedelta_new.
  replace (((((0 * 7 + n) * 24 + 0) * 60 + 0) * 60 + 0) * US_PER_SECOND
           + 0 * 1000 + 0) with (n * US_PER_DAY)
    by (unfold US_PER_DAY, US_PER_SECOND; lia).
  rewrite Z.div_mul by discriminate.
  replace (n * US_PER_DAY / US_PER_SECOND) with (n * 86400).
  2:{ unfold US_PER_DAY. rewrite Z.mul_assoc, Z.div_mul; [reflexivity | discriminate]. }
  rewrite Z.mod_mul by discriminate.
  replace (n * US_PER_DAY mod US_PER_SECOND) with 0.
  2:{ unfold US_PER_DAY. rewrite Z.mul_assoc, Z.mod_mul; [reflexivity | discriminate]. }
  rewrite Z.gtb_ltb.
  destruct (Z.ltb_spec MAX_DELTA_DAYS (Z.abs n)), (Z.leb_spec (Z.abs n) MAX_DELTA_DAYS);
    try reflexivity; lia.
Qed.

Context {T : Type} `{Temporal T}.

(** X16: an integer step [n] is a step of [n] days whatever its sign
    (zero and negative steps are accepted), and makes the constructor
    raise OverflowError when its magnitude is over 999999999. *)
Theorem integer_step (start : T) (to : option T) (n : Z) :
  __init__ start to (Int n)
  = if Z.abs n <=? MAX_DELTA_DAYS
    then Ok (mk_self start
               (match to with
                | None => fun _ => true
                | Some to => fun d => __le__ d to
                end)
               (mk_timedelta n 0 0))
    else Raise OverflowError.
Proof.
  unfold __init__. rewrite timedelta_days.
  now destruct (Z.abs n <=? MAX_DELTA_DAYS).
Qed.

Lemma new_raises_only s e :
  delta.__new__ s = Raise e -> e = OverflowError \/ exists m, e = ValueError m.
Proof.
  unfold delta.__new__.
  destruct (loop_cases (split "," s) ∅)
    as [(cns & kwargs & Hall & Hloop) | (_ & m & Hloop)];
    rewrite Hloop; cbn [bind].
  - rewrite (kwargs_totals _ cns kwargs Hall Hloop).
    destruct (timedelta_new_cases (total "days" cns) (total "seconds" cns)
                (total "microseconds" cns) 0 (total "minutes" cns)
                (total "hours" cns) 0) as [(td & ->) | ->]; [discriminate|].
    intros [= <-]. now left.
  - intros [= <-]. right. now exists m.
Qed.

(** X17: whatever it is given, the constructor raises nothing but
    OverflowError, the TypeError "Invalid step value" on the step as it
    was given, and, on a string step of more digits than [int] converts,
    the ValueError of [int], which is called outside the [try]. A
    ValueError of [delta] never escapes. *)
Theorem init_raises_only (start : T) (to : option T) (st : object) (e : exception) :
  __init__ start to st = Raise e ->
  e = OverflowError \/ e = TypeError (Invalid_step_value st) \/
  exists q,
    all isdecimal q = true /\ (MAX_STR_DIGITS < String.length q)%nat /\
    (st = Str q \/ st = Str (q +:+ String "010" "")) /\
    e = ValueError (Exceeds_the_limit (String.length q)).
Proof.
  destruct st as [n|s|td|].
  - unfold __init__. rewrite timedelta_days.
    destruct (_ <=? _); [discriminate|]. intros [= <-]. now left.
  - unfold __init__.
    destruct (match_ [capture (plus d)] s) as [gs|] eqn:Hm.
    + apply digits_sound in Hm as (q & _ & Hne & Hq & Hs).
      assert (Hint : int s = int q).
      { destruct Hs as [-> | (c & -> & Hc)]; [reflexivity|].
        now apply int_newline. }
      assert (Hst : Str s = Str q \/ Str s = Str (q +:+ String "010" "")).
      { destruct Hs as [-> | (c & -> & Hc)]; [now left|].
        right. now rewrite (ord_newline c Hc). }
      rewrite Hint.
      destruct (Nat.le_gt_cases (String.length q) MAX_STR_DIGITS) as [Hlen|Hlen].
      * destruct (int_decimal q Hne Hq Hlen) as (n & -> & _). cbn [bind].
        rewrite timedelta_days. destruct (_ <=? _); [discriminate|].
        intros [= <-]. now left.
      * rewrite (int_too_long q Hq Hlen). cbn [bind]. intros [= <-].
        right. right. exists q. auto.
    + destruct (delta.__new__ s) as [td|e'] eqn:Hd; [discriminate|].
      apply new_raises_only in Hd as [-> | (m & ->)]; cbn [bind].
      * intros [= <-]. now left.
      * intros [= <-]. right. now left.
  - discriminate.
  - intros [= <-]. right. now left.
Qed.

End more_init.

Section more_steps.
Import str str_facts re re_facts delta_facts alias_facts loop_facts DateRange
  range_facts.

Lemma decimal_not_letter c : isdecimal c = true -> isletter c = false.
Proof. each_char c. Qed.

Lemma newline_not_comma c : ord c = 10 -> negb (Ascii.eqb c ",") = true.
Proof. each_char c. Qed.

Lemma decimal_not_comma c : isdecimal c = true -> negb (Ascii.eqb c ",") = true.
Proof. each_char c. Qed.

Lemma strip_digits_newline q c :
  q <> "" -> all isdecimal q = true -> ord c = 10 ->
  strip (q +:+ String c "") = q.
Proof.
  intros Hne Hq Hc.
  destruct (last_char q Hne) as (a & x & Hlast).
  assert (Hx : isspace x = false).
  { rewrite Hlast in Hq. apply all_last in Hq as [_ Hx].
    now apply decimal_not_space. }
  assert (Hr : all isspace (String c "") = true).
  { simpl. now rewrite (newline_space c Hc). }
  assert (Hstop : stops isspace q).
  { destruct q as [|d q]; [congruence|]. simpl in *.
    apply andb_true_iff in Hq as [Hd _]. now apply decimal_not_space. }
  exact (strip_core "" q (String c "") a x eq_refl Hr Hstop Hlast Hx).
Qed.

(** The parser accepts no string of digits: what follows the number is
    not a unit. *)
Lemma digits_not_accepted kwargs x q :
  strip x = q -> all isdecimal q = true ->
  forall kwargs', delta.body kwargs (strip x) <> Ok kwargs'.
Proof.
  intros Hx Hq kwargs' Hb.
  apply body_ok_inv in Hb as (c & n & (number & token & Hr & _ & Hc) & _).
  destruct Hr as (gap & (Hsp & _ & _ & _ & _ & _) & _).
  apply alias_token in Hc as [Hne Hlet].
  rewrite Hx in Hsp. rewrite Hsp, !all_app in Hq.
  apply andb_true_iff in Hq as [_ [_ Htok]%andb_true_iff].
  destruct token as [|t token]; [congruence|]. simpl in Htok, Hlet.
  apply andb_true_iff in Htok as [Ht _]. apply andb_true_iff in Hlet as [Hl _].
  rewrite (decimal_not_letter t Ht) in Hl. discriminate.
Qed.

Lemma digits_not_delta s gs td :
  match_ [capture (plus d)] s = Some gs -> delta.__new__ s <> Ok td.
Proof.
  intros Hm Hd.
  apply digits_sound in Hm as (q & _ & Hne & Hq & Hs).
  assert (Hnc : nocomma s = true /\ strip s = q) .
  { destruct Hs as [-> | (c & -> & Hc)].
    - split; [|now apply strip_decimal].
      apply (all_impl isdecimal); auto using decimal_not_comma.
    - split; [|now apply strip_digits_newline].
      rewrite nocomma_app. apply andb_true_iff. split.
      + apply (all_impl isdecimal); auto using decimal_not_comma.
      + unfold nocomma. cbn [all]. now rewrite (newline_not_comma c Hc). }
  destruct Hnc as [Hnc Hstrip].
  unfold delta.__new__ in Hd. rewrite (split_nocomma s Hnc) in Hd.
  cbn [map delta.loop] in Hd.
  destruct (delta.body ∅ (strip s)) as [kwargs'|e] eqn:Hb; [|discriminate].
  now apply (digits_not_accepted ∅ s q Hstrip Hq) in Hb.
Qed.

Context {T : Type} `{Temporal T}.

(** X18: a string step that [delta] parses is the step of the range: the
    constructor returns the range of the start, the condition of the
    bound and the timedelta that [delta] returns for the string. *)
Theorem parsed_string_step
    (start : T) (to : option T) (s : string) (td : timedelta) :
  delta.__new__ s = Ok td ->
  __init__ start to (Str s)
  = Ok (mk_self start
          (match to with
           | None => fun _ => true
           | Some to => fun d => __le__ d to
           end) td).
Proof.
  intros Hd. unfold __init__.
  destruct (match_ [capture (plus d)] s) as [gs|] eqn:Hm.
  - now apply (digits_not_delta s gs td) in Hm.
  - now rewrite Hd.
Qed.

(** X19: a string step of more digits than [int] converts makes the
    constructor raise the ValueError of [int]: the step matches the
    pattern of integer strings, and [int] is called outside the [try]. *)
Theorem long_digit_step_raises_value_error
    (start : T) (to : option T) (q : string) :
  all isdecimal q = true -> (MAX_STR_DIGITS < String.length q)%nat ->
  __init__ start to (Str q)
  = Raise (ValueError (Exceeds_the_limit (String.length q))).
Proof.
  intros Hq Hlen.
  assert (Hne : q <> "") by (intros ->; simpl in Hlen; lia).
  unfold __init__. rewrite (digits_complete q Hne Hq).
  now rewrite (int_too_long q Hq Hlen).
Qed.

End more_steps.

(** * The further properties on instances *)

Section more_instances.
Import str DateRange.

Lemma returned_values_within_bound_witness :
  __le__ (june 23) (june 25) = true.
Proof.
  apply (returned_values_within_bound (june 21) (june 25) (Str "2 days") g4 5
           (june 23)).
  - unfold __init__.
    replace (re.match_ [re.capture (re.plus re.d)] "2 days")
      with (@None (list string)) by (vm_compute; reflexivity).
    replace (delta.__new__ "2 days") with (Ok (mk_timedelta 2 0 0))
      by (vm_compute; reflexivity).
    reflexivity.
  - apply (list_elem_of_lookup_2 _ 1%nat). vm_compute. reflexivity.
Defined.

Lemma returned_value_is_start_plus_steps_witness :
  add_times (june 21) (mk_timedelta 2 0 0) 2 = Ok (june 25).
Proof.
  apply (returned_value_is_start_plus_steps g4 5 2 (june 25)).
  vm_compute. reflexivity.
Defined.

Lemma step_without_advance_repeats_witness :
  calls 3 half_days = ([Ok (june 21); Ok (june 21); Ok (june 21)], half_days).
Proof.
  apply (step_without_advance_repeats half_days 3).
  - reflexivity.
  - split; vm_compute; discriminate.
  - reflexivity.
Defined.

Lemma bounded_range_length_witness :
  (calls 3 odd_span).1 = [Ok (june 21); Ok (june 23); Raise StopIteration].
Proof.
  refine (bounded_range_length (june 21) (june 24) (Int 2) odd_span 2 1
            _ _ _ _ _ _).
  - reflexivity.
  - reflexivity.
  - lia.
  - vm_compute. discriminate.
  - split; vm_compute; discriminate.
  - split; vm_compute; discriminate.
Defined.

Lemma backward_step_never_stops_witness :
  Raise StopIteration
  ∉ (calls 4 (mk_self (june 21) (fun d => __le__ d (june 24))
                 (mk_timedelta (-1) 0 0))).1.
Proof.
  apply (backward_step_never_stops (june 21) (june 24) (Int (-1))).
  - reflexivity.
  - vm_compute. discriminate.
  - vm_compute. discriminate.
Defined.

Lemma overflow_hides_current_value_witness :
  calls 2 (mk_self (fromordinal MAXORDINAL) (fun _ => true) (mk_timedelta 1 0 0))
  = ([Raise OverflowError; Raise OverflowError],
     mk_self (fromordinal MAXORDINAL) (fun _ => true) (mk_timedelta 1 0 0)).
Proof.
  apply (overflow_hides_current_value
           (mk_self (fromordinal MAXORDINAL) (fun _ => true) (mk_timedelta 1 0 0))
           2).
  - reflexivity.
  - intros [_ Hhi]. vm_compute in Hhi. apply Hhi. reflexivity.
Defined.

Lemma date_range_ignores_time_of_step_witness :
  (calls 3 (mk_self (june 21) (fun _ => true) (mk_timedelta 1 0 0))).1
  = (calls 3 (mk_self (june 21) (fun _ => true) (mk_timedelta 1 43200 0))).1.
Proof.
  apply (date_range_ignores_time_of_step (june 21) (fun _ => true)
           (mk_timedelta 1 0 0) (mk_timedelta 1 43200 0) 3).
  reflexivity.
Defined.

Lemma delta_result_is_not_negative_witness :
  0 <= 1 <= MAX_DELTA_DAYS /\ 0 <= 14400 < 86400 /\ 0 <= 0 < US_PER_SECOND.
Proof.
  apply (delta_result_is_not_negative "1 day, 4 hours" (mk_timedelta 1 14400 0)).
  vm_compute. reflexivity.
Defined.

Lemma delta_value_witness :
  exists td,
    delta.__new__ "1 day, 4 hours" = Ok td /\
    total_microseconds td = 100800000000.
Proof.
  apply (proj1 (delta_value
                  [mk_specifier "" "1" " " "day" "";
                   mk_specifier " " "4" " " "hours" ""]
                  [("days", 1); ("hours", 4)]
                  ltac:(repeat constructor; solve [vm_compute; reflexivity | discriminate])
                  ltac:(discriminate))).
  vm_compute. reflexivity.
Defined.

Lemma invert_exact_witness :
  invert_into ∅ delta.UNIT_NAMES !! "hr" = Some "hours" <->
  exists aliases,
    ("hours", aliases) ∈ delta.UNIT_NAMES /\ ("hr" = "hours" \/ "hr" ∈ aliases).
Proof.
  apply (invert_exact delta.UNIT_NAMES "hr" "hours").
  apply (bool_decide_unpack _). vm_compute. exact I.
Defined.

Lemma delta_order_is_irrelevant_witness :
  delta.__new__ "1 day, 4 hours" = delta.__new__ " 4 hours,1 day".
Proof.
  apply (delta_order_is_irrelevant
           [(mk_specifier "" "1" " " "day" "", ("days", 1));
            (mk_specifier " " "4" " " "hours" "", ("hours", 4))]
           [(mk_specifier " " "4" " " "hours" "", ("hours", 4));
            (mk_specifier "" "1" " " "day" "", ("days", 1))]).
  - repeat constructor; solve [vm_compute; reflexivity | discriminate].
  - discriminate.
  - apply perm_swap.
Defined.

Lemma delta_blank_specifier_witness :
  delta.__new__ "  " = Raise (ValueError (Invalid_delta_specifier "")) /\
  delta.__new__ "  ,1 day" = Raise (ValueError (Invalid_delta_specifier "")).
Proof.
  apply (delta_blank_specifier "  " "1 day"). reflexivity.
Defined.

Lemma init_raises_only_witness :
  OverflowError = OverflowError \/
  OverflowError = TypeError (Invalid_step_value (Int 1000000000)) \/
  exists q,
    all isdecimal q = true /\ (MAX_STR_DIGITS < String.length q)%nat /\
    (Int 1000000000 = Str q \/ Int 1000000000 = Str (q +:+ String "010" "")) /\
    OverflowError = ValueError (Exceeds_the_limit (String.length q)).
Proof.
  apply (init_raises_only (june 21) None (Int 1000000000) OverflowError).
  vm_compute. reflexivity.
Defined.

Lemma parsed_string_step_witness :
  __init__ (june 21) (Some (june 25)) (Str "2 days") = Ok g4.
Proof.
  apply (parsed_string_step (june 21) (Some (june 25)) "2 days"
           (mk_timedelta 2 0 0)).
  vm_compute. reflexivity.
Defined.

Lemma long_digit_step_raises_value_error_witness :
  __init__ (june 21) None (Str (nines 4301))
  = Raise (ValueError (Exceeds_the_limit (String.length (nines 4301)))).
Proof.
  apply (long_digit_step_raises_value_error (june 21) None (nines 4301)).
  - vm_compute. reflexivity.
  - apply Nat.ltb_lt. vm_compute. reflexivity.
Defined.

End more_instances.
